(** * Squad scraper: table discovery, column inference and row clean-up

    A shallow embedding of [scripts/fetch_squads.py].  The program reads
    parsed HTML documents (BeautifulSoup trees), picks the wikitable that
    lists the first-team squad, infers which column carries which role,
    turns every table row into a player record and finally enriches and
    filters the records.

    Python strings are sequences of Unicode code points; they are modelled
    as lists of [N].  The character classes and case mappings of the Python
    runtime ([str.isspace], [str.isdigit], the regex class [\d],
    [str.lower], [str.upper]) are an interface, [Unicode]; every result
    below holds for every implementation of it, and an ASCII implementation
    is provided to run the definitions. *)

From Stdlib Require Import String Ascii NArith List Lia Bool Arith.
From stdpp Require Import base option list gmap.

Set Warnings "-register-all".

Local Open Scope N_scope.
Local Open Scope nat_scope.

(** ** Python text *)

Definition char := N.
Definition pystr := list N.

(** Code points of a UTF-8 encoded literal; [acc] is the code point being
    assembled and [k] the number of continuation bytes still expected. *)
Fixpoint utf8_decode (acc : N) (k : nat) (bs : list N) : pystr :=
  match bs with
  | [] => []
  | b :: r =>
      match k with
      | S k' =>
          let acc' := (acc * 64 + b mod 64)%N in
          match k' with
          | O => acc' :: utf8_decode 0%N O r
          | S _ => utf8_decode acc' k' r
          end
      | O =>
          if (b <? 128)%N then b :: utf8_decode 0%N O r
          else if (b <? 224)%N then utf8_decode (b mod 32)%N 1 r
          else if (b <? 240)%N then utf8_decode (b mod 16)%N 2 r
          else utf8_decode (b mod 8)%N 3 r
      end
  end.

(** [u "text"] is the Python string literal ["text"]. *)
Definition u (s : string) : pystr :=
  utf8_decode 0%N O (map N_of_ascii (list_ascii_of_string s)).

(** [a == b] on strings *)
Fixpoint str_eqb (a b : pystr) : bool :=
  match a, b with
  | [], [] => true
  | x :: a', y :: b' => (x =? y)%N && str_eqb a' b'
  | _, _ => false
  end.

(** [a in l] for a list (or set) of strings *)
Definition str_in (a : pystr) (l : list pystr) : bool := existsb (str_eqb a) l.

(** [a.startswith(p)] *)
Fixpoint startswith (p a : pystr) : bool :=
  match p, a with
  | [], _ => true
  | _ :: _, [] => false
  | x :: p', y :: a' => (x =? y)%N && startswith p' a'
  end.

(** [p in a] for strings: [p] occurs in [a] as a contiguous run. *)
Fixpoint contains (p a : pystr) : bool :=
  startswith p a ||
  match a with
  | [] => false
  | _ :: a' => contains p a'
  end.

(** [a.replace(c, "")] for a one-character [c]. *)
Definition remove_char (c : char) (a : pystr) : pystr :=
  List.filter (fun x => negb (x =? c)%N) a.

(** [a.replace(c, d)] for one-character [c] and [d]. *)
Definition replace_char (c d : char) (a : pystr) : pystr :=
  map (fun x => if (x =? c)%N then d else x) a.

(** [sep.join(parts)] *)
Fixpoint join (sep : pystr) (parts : list pystr) : pystr :=
  match parts with
  | [] => []
  | [p] => p
  | p :: rest => p ++ sep ++ join sep rest
  end.

(** The part of the Python runtime's Unicode database the program uses. *)
Class Unicode := {
  isspace : char -> bool;    (* one character of [str.isspace] / [str.strip] *)
  isdigit : char -> bool;    (* one character of [str.isdigit] *)
  isdecimal : char -> bool;  (* one character of the regex class [\d] *)
  lower : pystr -> pystr;    (* [str.lower] *)
  upper : pystr -> pystr     (* [str.upper] *)
}.

Definition ascii_isspace (c : char) : bool :=
  ((9 <=? c) && (c <=? 13) || (28 <=? c) && (c <=? 32))%N.
Definition ascii_isdigit (c : char) : bool := ((48 <=? c) && (c <=? 57))%N.
Definition ascii_lower_char (c : char) : char :=
  if ((65 <=? c) && (c <=? 90))%N then (c + 32)%N else c.
Definition ascii_upper_char (c : char) : char :=
  if ((97 <=? c) && (c <=? 122))%N then (c - 32)%N else c.

(** The runtime restricted to ASCII: every other code point is neither
    space nor digit and has no case. *)
Definition ascii_unicode : Unicode := {|
  isspace := ascii_isspace;
  isdigit := ascii_isdigit;
  isdecimal := ascii_isdigit;
  lower := map ascii_lower_char;
  upper := map ascii_upper_char
|}.

Section Text.
Context `{U : Unicode}.

Fixpoint lstrip (a : pystr) : pystr :=
  match a with
  | [] => []
  | c :: r => if isspace c then lstrip r else a
  end.
Definition rstrip (a : pystr) : pystr := rev (lstrip (rev a)).
(** [a.strip()] *)
Definition strip (a : pystr) : pystr := rstrip (lstrip a).

(** [a.isdigit()]: at least one character, all of them digits. *)
Definition str_isdigit (a : pystr) : bool :=
  match a with
  | [] => false
  | _ :: _ => forallb isdigit a
  end.

(** [re.findall(r'\d+', a)]: the maximal runs of [\d] characters, left to
    right; [cur] is the run being read, last character first. *)
Definition flush (cur : pystr) : list pystr :=
  match cur with
  | [] => []
  | _ :: _ => [rev cur]
  end.
Fixpoint findall_digits_from (cur a : pystr) : list pystr :=
  match a with
  | [] => flush cur
  | c :: r =>
      if isdecimal c then findall_digits_from (c :: cur) r
      else flush cur ++ findall_digits_from [] r
  end.
Definition findall_digits (a : pystr) : list pystr := findall_digits_from [] a.

End Text.

(** Truth value of a Python list: it is not empty. *)
Definition nonempty {A} (l : list A) : bool :=
  match l with [] => false | _ :: _ => true end.

Definition is_Some_b {A} (o : option A) : bool :=
  match o with Some _ => true | None => false end.

(** ** Exceptions

    What a Python expression yields: a value, or the [IndexError] that
    indexing a list outside its range raises. *)

Inductive outcome (A : Type) :=
| Returns (a : A)
| IndexError.
Arguments Returns {A} a.
Arguments IndexError {A}.

Definition bind {A B} (m : outcome A) (k : A -> outcome B) : outcome B :=
  match m with
  | Returns a => k a
  | IndexError => IndexError
  end.

Notation "'let!' x ':=' m 'in' k" := (bind m (fun x => k))
  (at level 10, x name, m at level 100, k at level 200, only parsing).

(** [l[i]] for an index that is not negative *)
Definition item {A} (l : list A) (i : nat) : outcome A :=
  match nth_error l i with
  | Some x => Returns x
  | None => IndexError
  end.

(** [l[-1]] *)
Definition last_item {A} (l : list A) : outcome A :=
  match last l with
  | Some x => Returns x
  | None => IndexError
  end.

(** ** Parsed documents

    A BeautifulSoup tree: text nodes and tags.  Of a tag's attributes the
    program reads [class] (a list of tokens) and [alt]. *)

Inductive node :=
| Text (s : pystr)
| Elem (name : pystr) (classes : list pystr) (alt : option pystr)
       (children : list node).

Definition is_elem (n : node) : bool :=
  match n with Text _ => false | Elem _ _ _ _ => true end.

Definition tag_name (n : node) : pystr :=
  match n with Text _ => [] | Elem nm _ _ _ => nm end.

(** [n.get("class", [])] *)
Definition get_class (n : node) : list pystr :=
  match n with Text _ => [] | Elem _ cl _ _ => cl end.

(** [n.get("alt")] *)
Definition get_alt (n : node) : option pystr :=
  match n with Text _ => None | Elem _ _ a _ => a end.

(** Tag named [nm] *)
Definition is_tag (nm : pystr) (n : node) : bool :=
  is_elem n && str_eqb (tag_name n) nm.

(** Tag named [nm] with [c] among its class tokens:
    the filter of [find_all(nm, class_=c)] and of [select("nm.c")]. *)
Definition is_tag_class (nm c : pystr) (n : node) : bool :=
  is_tag nm n && str_in c (get_class n).

(** Everything below [n], in document order. *)
Fixpoint descendants (n : node) : list node :=
  match n with
  | Text _ => []
  | Elem _ _ _ cs => flat_map (fun c => c :: descendants c) cs
  end.

(** [n.find_all(...)] with the filter [p] *)
Definition find_all (p : node -> bool) (n : node) : list node :=
  List.filter p (descendants n).

(** [n.find(...)] with the filter [p] *)
Definition find (p : node -> bool) (n : node) : option node :=
  head (find_all p n).

(** The strings below [n], in document order. *)
Definition strings (n : node) : list pystr :=
  flat_map (fun d => match d with Text s => [s] | Elem _ _ _ _ => [] end)
           (descendants n).

(** [heading.find_next_sibling()] repeated: the tags after a node among
    the children of its parent, strings skipped. *)
Definition following_tags (after : list node) : list node :=
  List.filter is_elem after.

Definition is_headline (n : node) : bool :=
  is_tag_class (u "span") (u "mw-headline") n.

(** [soup.find_all("span", class_="mw-headline")], each span paired with
    what follows its parent: [after] are the siblings after [n], and the
    children of [n] are visited in document order. *)
Fixpoint headline_sites (after : list node) (n : node) : list (node * list node) :=
  match n with
  | Text _ => []
  | Elem _ _ _ cs =>
      (fix visit (l : list node) : list (node * list node) :=
         match l with
         | [] => []
         | c :: rest =>
             (if is_headline c then [(c, after)] else [])
               ++ headline_sites rest c ++ visit rest
         end) cs
  end.

Section Scraper.
Context `{U : Unicode}.

(** [n.get_text(sep)] *)
Definition get_text (sep : pystr) (n : node) : pystr :=
  join sep (strings n).

(** [n.get_text(sep, strip=True)]: every string is stripped and the empty
    ones are left out. *)
Definition get_text_strip (sep : pystr) (n : node) : pystr :=
  join sep (List.filter (fun s => negb (str_eqb s [])) (map strip (strings n))).

(** ** Table classifier *)

Definition has_flagicon (table : node) : bool :=
  nonempty (find_all (is_tag_class (u "span") (u "flagicon")) table).

Definition th_headers (n : node) : list pystr :=
  map (fun th => lower (get_text_strip (u " ") th)) (find_all (is_tag (u "th")) n).

Definition country_terms : list pystr :=
  [u "nation"; u "nat"; u "nat."; u "country"; u "nationality"].

Definition is_player_table (table : node) (require_country : bool) : bool :=
  let headers := th_headers table in
  if negb (nonempty headers) then false
  else
    let has_player :=
      existsb (fun h => contains (u "player") h || str_eqb h (u "name")) headers in
    let has_position :=
      existsb (fun h => contains (u "pos") h || contains (u "position") h) headers in
    let has_country :=
      existsb (fun h => existsb (fun term => contains term h) country_terms) headers in
    let has_number :=
      existsb (fun h => startswith (u "no") h || str_eqb h (u "n")
                        || contains (u "squad number") h) headers in
    if require_country then has_player && has_position && has_country
    else has_player && has_position
         && (has_country || (has_flagicon table && has_number)).

(** ** Table selector *)

Definition is_wikitable (n : node) : bool :=
  str_eqb (tag_name n) (u "table") && str_in (u "wikitable") (get_class n).

Definition is_squad_heading (span : node) : bool :=
  let text := lower (get_text_strip [] span) in
  contains (u "first-team squad") text || contains (u "first team squad") text.

(** The state of the search below the headings: a table was returned, or
    the search goes on with the fallback remembered so far. *)
Inductive scan :=
| Returned (table : node)
| Pending (fallback_near_heading : option node).

(** The [while sib is not None] loop over the tags after one heading. *)
Fixpoint scan_siblings (fallback : option node) (sibs : list node) : scan :=
  match sibs with
  | [] => Pending fallback
  | sib :: rest =>
      if is_wikitable sib then
        if is_player_table sib true then Returned sib
        else if negb (is_Some_b fallback) && is_player_table sib false
             then scan_siblings (Some sib) rest
             else scan_siblings fallback rest
      else scan_siblings fallback rest
  end.

(** The [for span in ...] loop over the headline spans. *)
Fixpoint scan_headlines (fallback : option node)
         (sites : list (node * list node)) : scan :=
  match sites with
  | [] => Pending fallback
  | (span, after) :: rest =>
      if is_squad_heading span then
        match scan_siblings fallback (following_tags after) with
        | Returned t => Returned t
        | Pending fb => scan_headlines fb rest
        end
      else scan_headlines fallback rest
  end.

Definition find_first_team_table (soup : node) : option node :=
  match scan_headlines None (headline_sites [] soup) with
  | Returned t => Some t
  | Pending (Some fb) => Some fb
  | Pending None =>
      let wikitables :=
        find_all (is_tag_class (u "table") (u "wikitable")) soup in
      match List.find (fun t => is_player_table t true) wikitables with
      | Some t => Some t
      | None =>
          match List.find (fun t => is_player_table t false) wikitables with
          | Some t => Some t
          | None => head wikitables
          end
      end
  end.

(** The wikitables next to a squad heading, in the order the search meets
    them: for every headline span that names the squad, the wikitables
    among the tags after its parent. *)
Definition site_tables (site : node * list node) : list node :=
  if is_squad_heading (fst site)
  then List.filter is_wikitable (following_tags (snd site))
  else [].

Definition heading_tables (soup : node) : list node :=
  flat_map site_tables (headline_sites [] soup).

(** The specification's table next to a heading: for every headline span
    that names the squad, the first wikitable met when walking forward
    from its parent, and no table beyond it. *)
Definition nearest_heading_tables (soup : node) : list node :=
  flat_map (fun site => firstn 1 (site_tables site)) (headline_sites [] soup).

(** [soup.find_all("table", class_="wikitable")] *)
Definition page_wikitables (soup : node) : list node :=
  find_all (is_tag_class (u "table") (u "wikitable")) soup.

(** ** Column inference *)

Record columns := {
  col_player : option nat;
  col_pos : option nat;
  col_nat : option nat;
  col_number : option nat
}.

Definition no_columns : columns :=
  {| col_player := None; col_pos := None; col_nat := None; col_number := None |}.

Definition is_name_header (header : pystr) : bool :=
  contains (u "player") header || str_eqb header (u "name").
Definition is_pos_header (header : pystr) : bool :=
  contains (u "pos") header || contains (u "position") header.
Definition is_nat_header (header : pystr) : bool :=
  contains (u "nation") header || contains (u "nat") header
  || contains (u "country") header.
Definition is_number_header (header : pystr) : bool :=
  contains (u "no") header || str_eqb header (u "n")
  || contains (u "squad number") header || contains (u "number") header.

(** One turn of the header loop: the [if]/[elif] chain. *)
Definition assign_header (cols : columns) (idx : nat) (header : pystr) : columns :=
  if is_name_header header then
    {| col_player := Some idx; col_pos := col_pos cols;
       col_nat := col_nat cols; col_number := col_number cols |}
  else if is_pos_header header then
    {| col_player := col_player cols; col_pos := Some idx;
       col_nat := col_nat cols; col_number := col_number cols |}
  else if is_nat_header header then
    {| col_player := col_player cols; col_pos := col_pos cols;
       col_nat := Some idx; col_number := col_number cols |}
  else if is_number_header header then
    {| col_player := col_player cols; col_pos := col_pos cols;
       col_nat := col_nat cols; col_number := Some idx |}
  else cols.

(** [enumerate(l)], counting from [start] *)
Fixpoint enumerate_from {A} (start : nat) (l : list A) : list (nat * A) :=
  match l with
  | [] => []
  | x :: r => (start, x) :: enumerate_from (S start) r
  end.

(** [for idx, header in enumerate(headers)] *)
Definition infer_columns (headers : list pystr) : columns :=
  fold_left (fun cols ih => assign_header cols (fst ih) (snd ih))
            (enumerate_from 0 headers) no_columns.

(** [tr.find_all(["td", "th"])] *)
Definition row_cells (tr : node) : list node :=
  find_all (fun n => is_tag (u "td") n || is_tag (u "th") n) tr.

Definition table_rows (table : node) : list node :=
  find_all (is_tag (u "tr")) table.

(** The first cell of each of the rows [1:6] that has a cell. *)
Definition first_cells (table : node) : list node :=
  flat_map (fun tr => match row_cells tr with c :: _ => [c] | [] => [] end)
           (firstn 5 (skipn 1 (table_rows table))).

Definition shift_column (col : option nat) : option nat :=
  match col with Some i => Some (i + 1) | None => None end.

(** [text.isdigit() or text == ""] *)
Definition numeric_or_empty (text : pystr) : bool :=
  str_isdigit text || str_eqb text [].

(** Column 0 becomes the number column, the other columns move up. *)
Definition shift_columns (cols : columns) : columns :=
  {| col_player := shift_column (col_player cols);
     col_pos := shift_column (col_pos cols);
     col_nat := shift_column (col_nat cols);
     col_number := Some 0 |}.

(** The check for a number column without a header. *)
Definition implicit_number (table : node) (headers : list pystr)
           (cols : columns) : columns :=
  if negb (is_Some_b (col_number cols)) && nonempty headers then
    match first_cells table with
    | [] => cols
    | first_cell :: _ =>
        let first_cell_text := get_text_strip [] first_cell in
        if numeric_or_empty first_cell_text then shift_columns cols else cols
    end
  else cols.

(** ** Row normalizer *)

Record player_row := {
  Name : pystr;
  Team : pystr;
  Country : pystr;
  Position : pystr;
  League : pystr;
  Shirt_Number : pystr
}.

(** [get_cell], with the exception that [cells[idx]] can raise: [None] is
    the empty value [""]. *)
Definition get_cell_exc (cells : list node) (idx : option nat)
  : outcome (option node) :=
  match idx with
  | None => Returns None
  | Some i =>
      if length cells <=? i then Returns None
      else let! cell := item cells i in Returns (Some cell)
  end.

(** The value of [get_cell]. *)
Definition get_cell (cells : list node) (idx : option nat) : option node :=
  match get_cell_exc cells idx with
  | Returns cell => cell
  | IndexError => None
  end.

Definition resolve_name (player_cell : option node) : pystr :=
  match player_cell with
  | Some cell =>
      match find (is_tag (u "a")) cell with
      | Some link => get_text_strip [] link
      | None => get_text_strip (u " ") cell
      end
  | None => []
  end.

Definition resolve_position (pos_cell : option node) : pystr :=
  match pos_cell with
  | Some cell => get_text_strip (u " ") cell
  | None => []
  end.

Definition extract_country_from_cell (cell : option node) : pystr :=
  match cell with
  | None => []
  | Some cell =>
      match find (is_tag_class (u "span") (u "flagicon")) cell with
      | None => []
      | Some flag =>
          let img_alt :=
            match find (is_tag (u "img")) flag with
            | Some img =>
                match get_alt img with
                | Some (c :: a) => Some (c :: a)
                | _ => None
                end
            | None => None
            end in
          match img_alt with
          | Some alt => strip alt
          | None =>
              match find (is_tag (u "a")) flag with
              | Some link => get_text_strip [] link
              | None => []
              end
          end
      end
  end.

(** The country text before it is mapped to a code. *)
Definition raw_country (nat_cell player_cell : option node) : pystr :=
  match nat_cell with
  | Some cell =>
      match last (find_all (is_tag (u "a")) cell) with
      | Some link => get_text_strip [] link
      | None => get_text_strip (u " ") cell
      end
  | None => extract_country_from_cell player_cell
  end.

(** The clean-up of the text of a number cell. *)
Definition clean_number (shirt_number : pystr) : pystr :=
  if nonempty shirt_number
     && negb (str_isdigit (remove_char 47%N (remove_char 45%N shirt_number)))
  then
    match findall_digits shirt_number with
    | first :: _ => first
    | [] => []
    end
  else shirt_number.

Definition resolve_number (number_cell : option node) : pystr :=
  match number_cell with
  | Some cell => clean_number (get_text_strip (u " ") cell)
  | None => []
  end.

(** A dictionary literal: of two entries with one key the later counts. *)
Fixpoint dict_get {V} (d : list (pystr * V)) (k : pystr) : option V :=
  match d with
  | [] => None
  | (k', v) :: r =>
      match dict_get r k with
      | Some v' => Some v'
      | None => if str_eqb k k' then Some v else None
      end
  end.

End Scraper.

(** ** Static tables *)

(** The country names and adjectives of [parse_first_team_table], in source order. *)
Definition country_map : list (pystr * pystr) :=
  [ (u "Spain", u "ESP");
    (u "Spanish", u "ESP");
    (u "Netherlands", u "NED");
    (u "Dutch", u "NED");
    (u "England", u "ENG");
    (u "English", u "ENG");
    (u "France", u "FRA");
    (u "French", u "FRA");
    (u "Germany", u "GER");
    (u "German", u "GER");
    (u "Brazil", u "BRA");
    (u "Brazilian", u "BRA");
    (u "Argentina", u "ARG");
    (u "Argentine", u "ARG");
    (u "Portugal", u "POR");
    (u "Portuguese", u "POR");
    (u "Italy", u "ITA");
    (u "Italian", u "ITA");
    (u "Belgium", u "BEL");
    (u "Belgian", u "BEL");
    (u "Uruguay", u "URU");
    (u "Uruguayan", u "URU");
    (u "Colombia", u "COL");
    (u "Colombian", u "COL");
    (u "Sweden", u "SWE");
    (u "Swedish", u "SWE");
    (u "Norway", u "NOR");
    (u "Norwegian", u "NOR");
    (u "Denmark", u "DEN");
    (u "Danish", u "DEN");
    (u "Poland", u "POL");
    (u "Polish", u "POL");
    (u "Croatia", u "CRO");
    (u "Croatian", u "CRO");
    (u "Serbia", u "SRB");
    (u "Serbian", u "SRB");
    (u "Ghana", u "GHA");
    (u "Ghanaian", u "GHA");
    (u "Senegal", u "SEN");
    (u "Senegalese", u "SEN");
    (u "Egypt", u "EGY");
    (u "Egyptian", u "EGY");
    (u "Japan", u "JPN");
    (u "Japanese", u "JPN");
    (u "South Korea", u "KOR");
    (u "Korean", u "KOR");
    (u "Australia", u "AUS");
    (u "Australian", u "AUS");
    (u "Canada", u "CAN");
    (u "Canadian", u "CAN");
    (u "United States", u "USA");
    (u "American", u "USA");
    (u "USA", u "USA");
    (u "Mexico", u "MEX");
    (u "Mexican", u "MEX");
    (u "Hungary", u "HUN");
    (u "Hungarian", u "HUN");
    (u "Romania", u "ROU");
    (u "Romanian", u "ROU");
    (u "Austria", u "AUT");
    (u "Austrian", u "AUT");
    (u "Switzerland", u "SUI");
    (u "Swiss", u "SUI");
    (u "Wales", u "WAL");
    (u "Welsh", u "WAL");
    (u "Scotland", u "SCO");
    (u "Scottish", u "SCO");
    (u "Northern Ireland", u "NIR");
    (u "Northern Irish", u "NIR");
    (u "Republic of Ireland", u "IRL");
    (u "Irish", u "IRL");
    (u "Georgia", u "GEO");
    (u "Georgian", u "GEO");
    (u "Mali", u "MLI");
    (u "Malian", u "MLI");
    (u "Ivory Coast", u "CIV");
    (u "Ivorian", u "CIV");
    (u "Algeria", u "ALG");
    (u "Algerian", u "ALG");
    (u "Uzbekistan", u "UZB");
    (u "Uzbek", u "UZB");
    (u "Czech Republic", u "CZE");
    (u "Czech", u "CZE");
    (u "Israel", u "ISR");
    (u "Israeli", u "ISR");
    (u "Ecuador", u "ECU");
    (u "Ecuadorian", u "ECU") ].

(** The player facts of [search_player_info], in source order: name, (country code, shirt number). *)
Definition known_players : list (pystr * (pystr * pystr)) :=
  [ (u "Pedro Porro", (u "ESP", u "23"));
    (u "Xavi Simons", (u "NED", u "10"));
    (u "Guglielmo Vicario", (u "ITA", u "13"));
    (u "Cristian Romero", (u "ARG", u "17"));
    (u "Destiny Udogie", (u "ITA", u "38"));
    (u "Yves Bissouma", (u "MLI", u "8"));
    (u "James Maddison", (u "ENG", u "10"));
    (u "Dejan Kulusevski", (u "SWE", u "21"));
    (u "Richarlison", (u "BRA", u "9"));
    (u "Dominic Solanke", (u "ENG", u "9"));
    (u "Mohammed Kudus", (u "GHA", u "11"));
    (u "Brennan Johnson", (u "WAL", u "22"));
    (u "Micky van de Ven", (u "NED", u "37"));
    (u "João Palhinha", (u "POR", u "6"));
    (u "Radu Drăgușin", (u "ROU", u "6"));
    (u "Kevin Danso", (u "AUT", u "15"));
    (u "Ben Davies", (u "WAL", u "33"));
    (u "Archie Gray", (u "ENG", u "44"));
    (u "Lucas Bergvall", (u "SWE", u "41"));
    (u "Pape Matar Sarr", (u "SEN", u "29"));
    (u "Rodrigo Bentancur", (u "URU", u "30"));
    (u "Mathys Tel", (u "FRA", u "18"));
    (u "Randal Kolo Muani", (u "FRA", u "9"));
    (u "Wilson Odobert", (u "FRA", u "23"));
    (u "Marc-André ter Stegen", (u "GER", u "1"));
    (u "Joan García", (u "ESP", u "13"));
    (u "Alejandro Balde", (u "ESP", u "3"));
    (u "Ronald Araújo", (u "URU", u "4"));
    (u "Pau Cubarsí", (u "ESP", u "5"));
    (u "Andreas Christensen", (u "DEN", u "15"));
    (u "Jules Koundé", (u "FRA", u "23"));
    (u "Gavi", (u "ESP", u "6"));
    (u "Pedri", (u "ESP", u "8"));
    (u "Frenkie de Jong", (u "NED", u "21"));
    (u "Ferran Torres", (u "ESP", u "7"));
    (u "Robert Lewandowski", (u "POL", u "9"));
    (u "Lamine Yamal", (u "ESP", u "10"));
    (u "Raphinha", (u "BRA", u "11"));
    (u "Marcus Rashford", (u "ENG", u "14"));
    (u "Roony Bardghji", (u "SWE", u "28"));
    (u "Thibaut Courtois", (u "BEL", u "1"));
    (u "Dani Carvajal", (u "ESP", u "2"));
    (u "Éder Militão", (u "BRA", u "3"));
    (u "David Alaba", (u "AUT", u "4"));
    (u "Jude Bellingham", (u "ENG", u "5"));
    (u "Eduardo Camavinga", (u "FRA", u "12"));
    (u "Vinícius Júnior", (u "BRA", u "7"));
    (u "Federico Valverde", (u "URU", u "15"));
    (u "Endrick", (u "BRA", u "9"));
    (u "Kylian Mbappé", (u "FRA", u "10"));
    (u "Rodrygo", (u "BRA", u "11"));
    (u "Trent Alexander-Arnold", (u "ENG", u "12"));
    (u "Andriy Lunin", (u "UKR", u "13"));
    (u "James Trafford", (u "ENG", u "1"));
    (u "Stefan Ortega", (u "GER", u "18"));
    (u "Gianluigi Donnarumma", (u "ITA", u "25"));
    (u "Rúben Dias", (u "POR", u "3"));
    (u "John Stones", (u "ENG", u "5"));
    (u "Nathan Aké", (u "NED", u "6"));
    (u "Joško Gvardiol", (u "CRO", u "24"));
    (u "Rodri", (u "ESP", u "16"));
    (u "Bernardo Silva", (u "POR", u "20"));
    (u "Phil Foden", (u "ENG", u "47"));
    (u "Erling Haaland", (u "NOR", u "9"));
    (u "Alisson Becker", (u "BRA", u "1"));
    (u "Virgil van Dijk", (u "NED", u "4"));
    (u "Ibrahima Konaté", (u "FRA", u "5"));
    (u "Wataru Endo", (u "JPN", u "3"));
    (u "Alexis Mac Allister", (u "ARG", u "10"));
    (u "Mohamed Salah", (u "EGY", u "11"));
    (u "Florian Wirtz", (u "GER", u "7"));
    (u "Dominik Szoboszlai", (u "HUN", u "8"));
    (u "Alexander Isak", (u "SWE", u "14"));
    (u "Federico Chiesa", (u "ITA", u "7"));
    (u "Cody Gakpo", (u "NED", u "18"));
    (u "Andy Robertson", (u "SCO", u "26"));
    (u "Conor Bradley", (u "NIR", u "12"));
    (u "Robert Sánchez", (u "ESP", u "1"));
    (u "Marc Cucurella", (u "ESP", u "3"));
    (u "Reece James", (u "ENG", u "24"));
    (u "Enzo Fernández", (u "ARG", u "8"));
    (u "Cole Palmer", (u "ENG", u "20"));
    (u "Moisés Caicedo", (u "ECU", u "25"));
    (u "Mykhailo Mudryk", (u "UKR", u "10"));
    (u "Manuel Neuer", (u "GER", u "1"));
    (u "Dayot Upamecano", (u "FRA", u "2"));
    (u "Kim Min-jae", (u "KOR", u "3"));
    (u "Jonathan Tah", (u "GER", u "4"));
    (u "Joshua Kimmich", (u "GER", u "6"));
    (u "Serge Gnabry", (u "GER", u "7"));
    (u "Leon Goretzka", (u "GER", u "8"));
    (u "Harry Kane", (u "ENG", u "9"));
    (u "Jamal Musiala", (u "GER", u "10"));
    (u "Nicolas Jackson", (u "SEN", u "11"));
    (u "Luis Díaz", (u "COL", u "14"));
    (u "Michael Olise", (u "FRA", u "17"));
    (u "Alphonso Davies", (u "CAN", u "19"));
    (u "Wojciech Szczęsny", (u "POL", u ""));
    (u "Eric García", (u "ESP", u ""));
    (u "Fermín López", (u "ESP", u ""));
    (u "Marc Casadó", (u "ESP", u ""));
    (u "Dani Olmo", (u "ESP", u ""));
    (u "Marc Bernal", (u "ESP", u ""));
    (u "Gerard Martín", (u "ESP", u ""));
    (u "Marcus Bettinelli", (u "ENG", u "13"));
    (u "Rayan Aït-Nouri", (u "ALG", u "21"));
    (u "Abdukodir Khusanov", (u "UZB", u "45"));
    (u "Rico Lewis", (u "ENG", u "82"));
    (u "Tijjani Reijnders", (u "NED", u "4"));
    (u "Mateo Kovačić", (u "CRO", u "8"));
    (u "Rayan Cherki", (u "FRA", u "10"));
    (u "Jérémy Doku", (u "BEL", u "11"));
    (u "Nico González", (u "ESP", u "14"));
    (u "Savinho", (u "BRA", u "26"));
    (u "Matheus Nunes", (u "POR", u "27"));
    (u "Kalvin Phillips", (u "ENG", u "44"));
    (u "Oscar Bobb", (u "NOR", u "52"));
    (u "Omar Marmoush", (u "EGY", u "7"));
    (u "Filip Jörgensen", (u "DEN", u "12"));
    (u "Gabriel Slonina", (u "USA", u "44"));
    (u "Tosin Adarabioyo", (u "ENG", u "4"));
    (u "Benoît Badiashile", (u "FRA", u "5"));
    (u "Levi Colwill", (u "ENG", u "6"));
    (u "Jorrel Hato", (u "NED", u "21"));
    (u "Trevoh Chalobah", (u "ENG", u "23"));
    (u "Malo Gusto", (u "FRA", u "27"));
    (u "Wesley Fofana", (u "FRA", u "29"));
    (u "Josh Acheampong", (u "ENG", u "34"));
    (u "Dário Essugo", (u "POR", u "14"));
    (u "Andrey Santos", (u "BRA", u "17"));
    (u "Facundo Buonanotte", (u "ARG", u "40"));
    (u "Roméo Lavia", (u "BEL", u "45"));
    (u "Reggie Walsh", (u "ENG", u "46"));
    (u "Pedro Neto", (u "POR", u "7"));
    (u "Liam Delap", (u "ENG", u "9"));
    (u "Jamie Gittens", (u "ENG", u "11"));
    (u "João Pedro", (u "BRA", u "20"));
    (u "Tyrique George", (u "ENG", u "32"));
    (u "Marc Guiu", (u "ESP", u "38"));
    (u "Estêvão", (u "BRA", u "41"));
    (u "Alejandro Garnacho", (u "ARG", u "49"));
    (u "Shim Mheuka", (u "FRA", u "62"));
    (u "Joe Gomez", (u "ENG", u "2"));
    (u "Milos Kerkez", (u "HUN", u "6"));
    (u "Hugo Ekitike", (u "FRA", u "22"));
    (u "Giorgi Mamardashvili", (u "GEO", u "25"));
    (u "Freddie Woodman", (u "ENG", u "28"));
    (u "Jeremie Frimpong", (u "NED", u "30"));
    (u "Ryan Gravenberch", (u "NED", u "38"));
    (u "Curtis Jones", (u "ENG", u "17"));
    (u "Giovanni Leoni", (u "ITA", u "15"));
    (u "Calvin Ramsay", (u "SCO", u "47"));
    (u "Kaide Gordon", (u "ENG", u "49"));
    (u "Trent Koné-Doherty", (u "IRL", u "51"));
    (u "Amara Nallo", (u "ENG", u "65"));
    (u "Kieran Morrison", (u "NIR", u "68"));
    (u "Rio Ngumoha", (u "ENG", u "73"));
    (u "Jayden Danns", (u "ENG", u "76"));
    (u "Wellity Lucky", (u "ENG", u "92"));
    (u "Harvey Elliott", (u "ENG", u "19"));
    (u "Antonín Kinský", (u "CZE", u "31"));
    (u "Brandon Austin", (u "ENG", u "40"));
    (u "Djed Spence", (u "ENG", u "24"));
    (u "Kōta Takai", (u "JPN", u "25"));
    (u "Dane Scarlett", (u "ENG", u "44"));
    (u "Luka Vušković", (u "CRO", u "16"));
    (u "Yang Min-hyeok", (u "KOR", u "18"));
    (u "Manor Solomon", (u "ISR", u "27"));
    (u "Ashley Phillips", (u "ENG", u "35"));
    (u "Alejo Véliz", (u "ARG", u "36"));
    (u "Alfie Devine", (u "ENG", u "45"));
    (u "Juan Musso", (u "ARG", u "1"));
    (u "José María Giménez", (u "URU", u "2"));
    (u "Matteo Ruggeri", (u "ITA", u "3"));
    (u "Conor Gallagher", (u "ENG", u "4"));
    (u "Johnny Cardoso", (u "USA", u "5"));
    (u "Koke", (u "ESP", u "6"));
    (u "Antoine Griezmann", (u "FRA", u "7"));
    (u "Pablo Barrios", (u "ESP", u "8"));
    (u "Alexander Sørloth", (u "NOR", u "9"));
    (u "Álex Baena", (u "ESP", u "10"));
    (u "Thiago Almada", (u "ARG", u "11"));
    (u "Carlos Martín", (u "ESP", u "12"));
    (u "Eduardo Camavinga", (u "FRA", u "12"));
    (u "Nico O'Reilly", (u "ENG", u ""));
    (u "Wojciech Szczęsny", (u "POL", u "31"));
    (u "Eric García", (u "ESP", u "24"));
    (u "Fermín López", (u "ESP", u "16"));
    (u "Marc Casadó", (u "ESP", u "32"));
    (u "Dani Olmo", (u "ESP", u "19"));
    (u "Marc Bernal", (u "ESP", u "22"));
    (u "Gerard Martín", (u "ESP", u "18")) ].

(** The country names and adjectives of [search_player_info], in source order. *)
Definition infobox_country_map : list (pystr * pystr) :=
  [ (u "Spain", u "ESP");
    (u "Spanish", u "ESP");
    (u "Netherlands", u "NED");
    (u "Dutch", u "NED");
    (u "England", u "ENG");
    (u "English", u "ENG");
    (u "France", u "FRA");
    (u "French", u "FRA");
    (u "Germany", u "GER");
    (u "German", u "GER");
    (u "Brazil", u "BRA");
    (u "Brazilian", u "BRA");
    (u "Argentina", u "ARG");
    (u "Argentine", u "ARG");
    (u "Portugal", u "POR");
    (u "Portuguese", u "POR");
    (u "Italy", u "ITA");
    (u "Italian", u "ITA");
    (u "Belgium", u "BEL");
    (u "Belgian", u "BEL");
    (u "Uruguay", u "URU");
    (u "Uruguayan", u "URU");
    (u "Colombia", u "COL");
    (u "Colombian", u "COL");
    (u "Sweden", u "SWE");
    (u "Swedish", u "SWE");
    (u "Norway", u "NOR");
    (u "Norwegian", u "NOR");
    (u "Denmark", u "DEN");
    (u "Danish", u "DEN");
    (u "Poland", u "POL");
    (u "Polish", u "POL");
    (u "Croatia", u "CRO");
    (u "Croatian", u "CRO");
    (u "Serbia", u "SRB");
    (u "Serbian", u "SRB");
    (u "Ghana", u "GHA");
    (u "Ghanaian", u "GHA");
    (u "Senegal", u "SEN");
    (u "Senegalese", u "SEN");
    (u "Egypt", u "EGY");
    (u "Egyptian", u "EGY");
    (u "Japan", u "JPN");
    (u "Japanese", u "JPN");
    (u "South Korea", u "KOR");
    (u "Korean", u "KOR");
    (u "Australia", u "AUS");
    (u "Australian", u "AUS");
    (u "Canada", u "CAN");
    (u "Canadian", u "CAN");
    (u "United States", u "USA");
    (u "American", u "USA");
    (u "Mexico", u "MEX");
    (u "Mexican", u "MEX");
    (u "Hungary", u "HUN");
    (u "Hungarian", u "HUN");
    (u "Romania", u "ROU");
    (u "Romanian", u "ROU");
    (u "Austria", u "AUT");
    (u "Austrian", u "AUT");
    (u "Switzerland", u "SUI");
    (u "Swiss", u "SUI");
    (u "Wales", u "WAL");
    (u "Welsh", u "WAL");
    (u "Scotland", u "SCO");
    (u "Scottish", u "SCO");
    (u "Northern Ireland", u "NIR");
    (u "Northern Irish", u "NIR");
    (u "Republic of Ireland", u "IRL");
    (u "Irish", u "IRL");
    (u "Georgia", u "GEO");
    (u "Georgian", u "GEO") ].

Record club_cfg := {
  team : pystr;
  league : pystr;
  urls : list pystr
}.

Definition CLUBS : list club_cfg :=
  [ {| team := u "FC Barcelona"; league := u "LaLiga";
       urls := [ u "https://en.wikipedia.org/wiki/2025%E2%80%9326_FC_Barcelona_season";
                 u "https://en.wikipedia.org/wiki/2024%E2%80%9325_FC_Barcelona_season" ] |};
    {| team := u "Real Madrid"; league := u "LaLiga";
       urls := [ u "https://en.wikipedia.org/wiki/2025%E2%80%9326_Real_Madrid_CF_season";
                 u "https://en.wikipedia.org/wiki/2024%E2%80%9325_Real_Madrid_CF_season" ] |};
    {| team := u "Atletico Madrid"; league := u "LaLiga";
       urls := [ u "https://en.wikipedia.org/wiki/2025%E2%80%9326_Atl%C3%A9tico_Madrid_season";
                 u "https://en.wikipedia.org/wiki/2024%E2%80%9325_Atl%C3%A9tico_Madrid_season" ] |};
    {| team := u "Manchester City"; league := u "Premier League";
       urls := [ u "https://en.wikipedia.org/wiki/2025%E2%80%9326_Manchester_City_F.C._season";
                 u "https://en.wikipedia.org/wiki/2024%E2%80%9325_Manchester_City_F.C._season" ] |};
    {| team := u "Manchester United"; league := u "Premier League";
       urls := [ u "https://en.wikipedia.org/wiki/2025%E2%80%9326_Manchester_United_F.C._season";
                 u "https://en.wikipedia.org/wiki/2024%E2%80%9325_Manchester_United_F.C._season" ] |};
    {| team := u "Chelsea"; league := u "Premier League";
       urls := [ u "https://en.wikipedia.org/wiki/2025%E2%80%9326_Chelsea_F.C._season";
                 u "https://en.wikipedia.org/wiki/2024%E2%80%9325_Chelsea_F.C._season" ] |};
    {| team := u "Liverpool"; league := u "Premier League";
       urls := [ u "https://en.wikipedia.org/wiki/2025%E2%80%9326_Liverpool_F.C._season";
                 u "https://en.wikipedia.org/wiki/2024%E2%80%9325_Liverpool_F.C._season" ] |};
    {| team := u "Arsenal"; league := u "Premier League";
       urls := [ u "https://en.wikipedia.org/wiki/2025%E2%80%9326_Arsenal_F.C._season";
                 u "https://en.wikipedia.org/wiki/2024%E2%80%9325_Arsenal_F.C._season" ] |};
    {| team := u "Tottenham Hotspur"; league := u "Premier League";
       urls := [ u "https://en.wikipedia.org/wiki/2025%E2%80%9326_Tottenham_Hotspur_F.C._season";
                 u "https://en.wikipedia.org/wiki/2024%E2%80%9325_Tottenham_Hotspur_F.C._season" ] |};
    {| team := u "Bayern Munich"; league := u "Bayern";
       urls := [ u "https://en.wikipedia.org/wiki/2025%E2%80%9326_FC_Bayern_Munich_season";
                 u "https://en.wikipedia.org/wiki/2024%E2%80%9325_FC_Bayern_Munich_season" ] |} ].

Definition MIN_PLAYER_THRESHOLD : nat := 10.

(** ** Table parser, club driver, enrichment and validation *)

Section Driver.
Context `{U : Unicode}.

(** The web at the time of the run: what [fetch_soup] returns for a URL,
    [None] when the download fails. *)
Variable fetch_soup : pystr -> option node.

(** The mapping of a country text that is not empty. *)
Definition normalize_country (country : pystr) : pystr :=
  if nonempty country then
    match dict_get country_map country with
    | Some code => code
    | None => if length country <=? 3 then upper country else country
    end
  else country.

(** One turn of the row loop; [None] is [continue]. *)
Definition parse_row (cols : columns) (team league : pystr) (tr : node)
  : option player_row :=
  let cells := row_cells tr in
  if negb (nonempty cells) || (length cells <? 2) then None
  else
    let player_cell := get_cell cells (col_player cols) in
    let name := resolve_name player_cell in
    let position := resolve_position (get_cell cells (col_pos cols)) in
    let country := raw_country (get_cell cells (col_nat cols)) player_cell in
    let shirt_number := resolve_number (get_cell cells (col_number cols)) in
    if negb (nonempty name) then None
    else Some {| Name := name; Team := team;
                 Country := normalize_country country;
                 Position := position; League := league;
                 Shirt_Number := shirt_number |}.

(** The row loop with the exceptions its list accesses can raise:
    [cells[idx]] in [get_cell], [links[-1]] and [numbers[0]]. *)
Definition raw_country_exc (nat_cell player_cell : option node) : outcome pystr :=
  match nat_cell with
  | Some cell =>
      let links := find_all (is_tag (u "a")) cell in
      if nonempty links then
        let! link := last_item links in Returns (get_text_strip [] link)
      else Returns (get_text_strip (u " ") cell)
  | None => Returns (extract_country_from_cell player_cell)
  end.

Definition clean_number_exc (shirt_number : pystr) : outcome pystr :=
  if nonempty shirt_number
     && negb (str_isdigit (remove_char 47%N (remove_char 45%N shirt_number)))
  then
    let numbers := findall_digits shirt_number in
    if nonempty numbers then item numbers 0 else Returns []
  else Returns shirt_number.

Definition resolve_number_exc (number_cell : option node) : outcome pystr :=
  match number_cell with
  | Some cell => clean_number_exc (get_text_strip (u " ") cell)
  | None => Returns []
  end.

Definition parse_row_exc (cols : columns) (team league : pystr) (tr : node)
  : outcome (option player_row) :=
  let cells := row_cells tr in
  if negb (nonempty cells) || (length cells <? 2) then Returns None
  else
    let! player_cell := get_cell_exc cells (col_player cols) in
    let name := resolve_name player_cell in
    let! pos_cell := get_cell_exc cells (col_pos cols) in
    let position := resolve_position pos_cell in
    let! nat_cell := get_cell_exc cells (col_nat cols) in
    let! country := raw_country_exc nat_cell player_cell in
    let! number_cell := get_cell_exc cells (col_number cols) in
    let! shirt_number := resolve_number_exc number_cell in
    if negb (nonempty name) then Returns None
    else Returns (Some {| Name := name; Team := team;
                          Country := normalize_country country;
                          Position := position; League := league;
                          Shirt_Number := shirt_number |}).

(** The header texts of the first row *)
Definition header_texts (header_row : node) : list pystr :=
  map (fun th => lower (get_text_strip (u " ") th))
      (find_all (is_tag (u "th")) header_row).

Definition table_columns (table header_row : node) : columns :=
  let headers := header_texts header_row in
  implicit_number table headers (infer_columns headers).

Definition parse_first_team_table (table : option node) (team league : pystr)
  : list player_row :=
  match table with
  | None => []
  | Some table =>
      match find (is_tag (u "tr")) table with
      | None => []
      | Some header_row =>
          omap (parse_row (table_columns table header_row) team league)
               (skipn 1 (table_rows table))
      end
  end.

(** The roster one URL yields: nothing when the download fails or the page
    has no table. *)
Definition roster_of_url (team league url : pystr) : list player_row :=
  match fetch_soup url with
  | None => []
  | Some soup =>
      match find_first_team_table soup with
      | None => []
      | Some table => parse_first_team_table (Some table) team league
      end
  end.

(** The [for url in urls] loop and what follows it. *)
Fixpoint try_urls (team league : pystr) (partial_rows : list player_row)
         (urls : list pystr) : list player_row :=
  match urls with
  | [] => if nonempty partial_rows then partial_rows else []
  | url :: rest =>
      match fetch_soup url with
      | None => try_urls team league partial_rows rest
      | Some soup =>
          match find_first_team_table soup with
          | None => try_urls team league partial_rows rest
          | Some table =>
              let rows := parse_first_team_table (Some table) team league in
              if nonempty rows then
                if MIN_PLAYER_THRESHOLD <=? length rows then rows
                else try_urls team league rows rest
              else try_urls team league partial_rows rest
          end
      end
  end.

Definition fetch_club_squad (club : club_cfg) : list player_row :=
  try_urls (team club) (league club) [] (urls club).

(** The infobox rows are read until one gives a linked country. *)
Fixpoint infobox_country (rows : list node) : pystr :=
  match rows with
  | [] => []
  | row :: rest =>
      let linked :=
        match find (is_tag (u "th")) row with
        | Some header =>
            let text := lower (get_text [] header) in
            if contains (u "nationality") text || contains (u "country") text then
              match find (is_tag (u "td")) row with
              | Some country_cell => find (is_tag (u "a")) country_cell
              | None => None
              end
            else None
        | None => None
        end in
      match linked with
      | Some link =>
          let country := get_text_strip [] link in
          match dict_get infobox_country_map country with
          | Some code => code
          | None => country
          end
      | None => infobox_country rest
      end
  end.

Definition search_player_info (name team : pystr) : pystr * pystr :=
  match dict_get known_players name with
  | Some info => info
  | None =>
      let search_url :=
        u "https://en.wikipedia.org/wiki/" ++ replace_char 32%N 95%N name in
      match fetch_soup search_url with
      | Some soup =>
          match find (is_tag_class (u "table") (u "infobox")) soup with
          | Some infobox => (infobox_country (table_rows infobox), [])
          | None => ([], [])
          end
      | None => ([], [])
      end
  end.

Definition invalid_names : list pystr :=
  [u "apps"; u "goals"; u "2"; u "spain"; u "france"; u "netherlands"].

Definition invalid_positions : list pystr :=
  [u "manager"; u "coach"; u "assistant coaches"; u "goalkeeping coach"; u "—"].

Definition is_valid_player_row (row : player_row) : bool :=
  let name := strip (Name row) in
  let position := lower (strip (Position row)) in
  if str_in (lower name) invalid_names || (length name <? 2) then false
  else if str_in position invalid_positions then false
  else if negb (nonempty name) then false
  else true.

Definition set_Country (row : player_row) (c : pystr) : player_row :=
  {| Name := Name row; Team := Team row; Country := c;
     Position := Position row; League := League row;
     Shirt_Number := Shirt_Number row |}.

Definition set_Shirt_Number (row : player_row) (n : pystr) : player_row :=
  {| Name := Name row; Team := Team row; Country := Country row;
     Position := Position row; League := League row;
     Shirt_Number := n |}.

(** What the body of the loop of [fill_missing_data] writes into a valid
    row. *)
Definition fill_row (row : player_row) : player_row :=
  let country := strip (Country row) in
  let shirt_number := strip (Shirt_Number row) in
  let '(found_country, found_number) :=
    search_player_info (Name row) (Team row) in
  let row1 :=
    if negb (nonempty country) && nonempty found_country
    then set_Country row found_country else row in
  if negb (nonempty shirt_number) && nonempty found_number
  then set_Shirt_Number row1 found_number else row1.

(** The rows are dictionaries that the pass updates in place: [heap] holds
    them by address, the lists hold addresses, and one address may occur
    several times in [rows].  An address without a row does not occur and
    is passed over. *)
Fixpoint fill_loop (heap : gmap nat player_row) (valid_rows : list nat)
         (rows : list nat) : gmap nat player_row * list nat :=
  match rows with
  | [] => (heap, valid_rows)
  | r :: rest =>
      match heap !! r with
      | None => fill_loop heap valid_rows rest
      | Some row =>
          if negb (is_valid_player_row row) then fill_loop heap valid_rows rest
          else fill_loop (<[r := fill_row row]> heap) (valid_rows ++ [r]) rest
      end
  end.

Definition fill_missing_data (heap : gmap nat player_row) (rows : list nat)
  : gmap nat player_row * list nat :=
  fill_loop heap [] rows.

(** The rows [main] hands to the CSV writer: every club's rows are fresh
    dictionaries, stored at the addresses 0, 1, 2, ... *)
Definition main_rows : list player_row :=
  let all_rows := flat_map fetch_club_squad CLUBS in
  let '(heap, valid_rows) :=
    fill_missing_data (map_seq 0 all_rows) (seq 0 (length all_rows)) in
  omap (fun r => heap !! r) valid_rows.

End Driver.

(** ** Vocabulary of the statements *)

Inductive role := RName | RPosition | RNationality | RShirtNumber.

#[global] Instance role_eq_dec : EqDecision role.
Proof. solve_decision. Defined.

(** The role the [if]/[elif] chain of the header loop gives a header. *)
Definition header_role (header : pystr) : option role :=
  if is_name_header header then Some RName
  else if is_pos_header header then Some RPosition
  else if is_nat_header header then Some RNationality
  else if is_number_header header then Some RShirtNumber
  else None.

Definition column_of (cols : columns) (r : role) : option nat :=
  match r with
  | RName => col_player cols
  | RPosition => col_pos cols
  | RNationality => col_nat cols
  | RShirtNumber => col_number cols
  end.

(** The index of the first element that satisfies [p]. *)
Fixpoint first_index {A} (p : A -> bool) (l : list A) : option nat :=
  match l with
  | [] => None
  | x :: r => if p x then Some 0 else option_map S (first_index p r)
  end.

Section Vocabulary.
Context `{U : Unicode}.

(** Where a run of [\d] characters ends: at the end of the text or before
    a character that is not [\d]. *)
Definition run_ends (post : pystr) : Prop :=
  match post with
  | [] => True
  | c :: _ => isdecimal c = false
  end.

(** A text that does not start with a space. *)
Definition starts_ok (a : pystr) : Prop :=
  match a with
  | [] => True
  | c :: _ => isspace c = false
  end.

(** A text with no space at either end. *)
Definition trimmed (a : pystr) : Prop := starts_ok a /\ starts_ok (rev a).

(** A text that is empty or has a character that is not a space. *)
Definition not_blank (a : pystr) : Prop := a <> [] -> strip a <> [].

(** Three facts of the Python runtime: upper case does not blank a text,
    the characters of the regex class [\d] are not spaces, and neither
    are the capital letters A to Z. *)
Definition runtime_laws : Prop :=
  (forall s, strip s <> [] -> strip (upper s) <> [])
  /\ (forall c, isdecimal c = true -> isspace c = false)
  /\ (forall c, (65 <= c)%N -> (c <= 90)%N -> isspace c = false).

(** A record that the row loop of the table parser emits. *)
Definition emitted_by_parser (row : player_row) : Prop :=
  exists cols team league tr, parse_row cols team league tr = Some row.

(** Code points of the capital letters A to Z *)
Definition is_capital (c : char) : bool := ((65 <=? c) && (c <=? 90))%N.

(** What the enrichment pass keeps of a row: the Name, Team, Position and
    League, and the Country and the Shirt Number that are not blank. *)
Definition extracted_kept (row row' : player_row) : Prop :=
  Name row' = Name row /\ Team row' = Team row
  /\ Position row' = Position row /\ League row' = League row
  /\ (strip (Country row) <> [] -> Country row' = Country row)
  /\ (strip (Shirt_Number row) <> [] -> Shirt_Number row' = Shirt_Number row).

End Vocabulary.

Section EnrichmentVocabulary.
Context `{U : Unicode}.
Variable fetch_soup : pystr -> option node.

(** Whether the address holds a row that the validator accepts. *)
Definition valid_at (heap : gmap nat player_row) (l : nat) : bool :=
  match heap !! l with
  | Some row => is_valid_player_row row
  | None => false
  end.

(** A field after the pass: as it was, or, where it was blank, what
    [search_player_info] found, which is not empty. *)
Definition kept_or_found (before after found : pystr) : Prop :=
  after = before \/ (strip before = [] /\ after = found /\ found <> []).

(** A row after the pass, against the row before it. *)
Definition filled_from (row row' : player_row) : Prop :=
  Name row' = Name row /\ Team row' = Team row
  /\ kept_or_found (Country row) (Country row')
                   (search_player_info fetch_soup (Name row) (Team row)).1
  /\ kept_or_found (Shirt_Number row) (Shirt_Number row')
                   (search_player_info fetch_soup (Name row) (Team row)).2.

End EnrichmentVocabulary.

(** ** Sample documents *)

Module Sample.
Local Open Scope string_scope.

Definition el (name : string) (classes : list string) (cs : list node) : node :=
  Elem (u name) (map u classes) None cs.
Definition txt (s : string) : node := Text (u s).
Definition th (s : string) : node := el "th" [] [txt s].
Definition td (s : string) : node := el "td" [] [txt s].
Definition tr (cells : list node) : node := el "tr" [] cells.
Definition wikitable (rows : list node) : node := el "table" ["wikitable"] rows.
Definition img (alt : string) : node := Elem (u "img") [] (Some (u alt)) [].
Definition flag (alt : string) : node := el "span" ["flagicon"] [img alt].
Definition link (s : string) : node := el "a" [] [txt s].
Definition page (body : list node) : node := el "[document]" [] body.
Definition squad_heading : node :=
  el "h2" [] [el "span" ["mw-headline"] [txt "First-team squad"]].

(** A table with a nationality header. *)
Definition strict_table : node :=
  wikitable [ tr [th "No."; th "Pos."; th "Nation"; th "Player"];
              tr [td "1"; td "GK"; td "ESP"; el "td" [] [link "Joan Garcia"]] ].

(** A table whose only sign of nationality is a flag icon. *)
Definition loose_table : node :=
  wikitable [ tr [th "No."; th "Pos."; th "Player"];
              tr [td "8"; td "MF"; el "td" [] [flag "Spain"; link "Pedri"]] ].

(** The loose table follows the heading; the strict one sits in a [div]
    and is met by the scan of the whole page only. *)
Definition page_loose_near_heading : node :=
  page [ squad_heading; el "p" [] [txt "Squad"]; loose_table;
         el "div" [] [strict_table] ].

(** The heading is followed by the loose table and then the strict one. *)
Definition page_strict_after_loose : node :=
  page [ squad_heading; loose_table; el "p" [] [txt "Reserves"]; strict_table ].

(** The loose table is the first table after the squad heading; the
    strict one follows the heading of the next section. *)
Definition page_strict_in_next_section : node :=
  page [ squad_heading; loose_table;
         el "h2" [] [el "span" ["mw-headline"] [txt "Transfers"]];
         strict_table ].

(** No squad heading: a table of results, then the two squad tables. *)
Definition results_table : node :=
  wikitable [ tr [th "Date"; th "Opponent"; th "Result"];
              tr [td "17 August"; td "Mallorca"; td "3-0"] ].

Definition page_without_heading : node :=
  page [ el "h2" [] [el "span" ["mw-headline"] [txt "Results"]];
         results_table; el "div" [] [loose_table; strict_table] ].

(** The header row has no cell for the number column; the second row
    carries a dash instead of a number. *)
Definition unlabelled_number_table : node :=
  wikitable [ tr [th "Player"; th "Pos."; th "Nation"];
              tr [td "7"; el "td" [] [link "Ferran Torres"]; td "FW"; td "Spain"];
              tr [td "—"; el "td" [] [link "Marc Bernal"]; td "MF"; td "Spain"] ].

(** A nationality cell with a flag icon and a code, and no link. *)
Definition flag_and_code_cell : node :=
  el "td" [] [flag "Spain"; txt " ESP"].

(** The table of the specification: the header row has an empty cell
    above the numbers "7", "10", "", "4", "23". *)
Definition unlabelled_column_header : node :=
  tr [th ""; th "Player"; th "Pos."; th "Nation"].

Definition unlabelled_column_table : node :=
  wikitable [ unlabelled_column_header;
              tr [td "7"; el "td" [] [link "Ferran Torres"]; td "FW"; td "Spain"];
              tr [td "10"; el "td" [] [link "Lamine Yamal"]; td "FW"; td "Spain"];
              tr [td ""; el "td" [] [link "Marc Bernal"]; td "MF"; td "Spain"];
              tr [td "4"; el "td" [] [link "Ronald Araújo"]; td "DF"; td "Uruguay"];
              tr [td "23"; el "td" [] [link "Jules Koundé"]; td "DF"; td "France"] ].

(** A table without data rows. *)
Definition header_only_table : node :=
  wikitable [ tr [th "Player"; th "Pos."; th "Nation"] ].

Definition two_player_table : node :=
  wikitable [ tr [th "No."; th "Pos."; th "Nation"; th "Player"];
              tr [td "1"; td "GK"; td "Germany"; el "td" [] [link "Marc-André ter Stegen"]];
              tr [td "8"; td "MF"; td "Spain"; el "td" [] [link "Pedri"]] ].

Definition page_two_players : node := page [squad_heading; two_player_table].
Definition page_one_player : node := page [squad_heading; strict_table].

(** A web on which the page of the season 2025-26 lists two players and
    the page of the season 2024-25 one. *)
Definition web (url : pystr) : option node :=
  if contains (u "/2025%E2%80%9326_") url then Some page_two_players
  else if contains (u "/2024%E2%80%9325_") url then Some page_one_player
  else None.

(** The headers of a squad list set in two columns. *)
Definition two_column_headers : list pystr :=
  [ u "no."; u "pos."; u "nation"; u "player";
    u "no."; u "pos."; u "nation"; u "player" ].

(** A row whose nationality cell links two countries. *)
Definition two_nationalities_row : node :=
  tr [ td "20"; td "MF"; el "td" [] [link "Brazil"; txt " "; link "Spain"];
       el "td" [] [link "Dani Olmo"] ].

Definition number_pos_nat_player : columns :=
  {| col_player := Some 3; col_pos := Some 1; col_nat := Some 2;
     col_number := Some 0 |}.

Definition number_pos_player : columns :=
  {| col_player := Some 2; col_pos := Some 1; col_nat := None;
     col_number := Some 0 |}.

(** The data row of [loose_table]. *)
Definition flag_in_name_row : node :=
  tr [td "8"; td "MF"; el "td" [] [flag "Spain"; link "Pedri"]].

(** A squad of ten. *)
Definition ten_player_table : node :=
  wikitable
    (tr [th "No."; th "Pos."; th "Nation"; th "Player"]
     :: map (fun name => tr [td "1"; td "MF"; td "Spain"; el "td" [] [link name]])
            [ "Pedri"; "Gavi"; "Dani Olmo"; "Marc Casadó"; "Marc Bernal";
              "Fermín López"; "Ferran Torres"; "Lamine Yamal"; "Eric García";
              "Gerard Martín" ]).

(** A web on which the page of the season 2025-26 lists two players and
    the page of the season 2024-25 ten. *)
Definition web_full_second (url : pystr) : option node :=
  if contains (u "/2025%E2%80%9326_") url then Some page_two_players
  else if contains (u "/2024%E2%80%9325_") url
       then Some (page [squad_heading; ten_player_table])
  else None.

(** A web without pages. *)
Definition offline (url : pystr) : option node := None.

Definition pedri (country shirt_number : string) : player_row :=
  {| Name := u "Pedri"; Team := u "FC Barcelona"; Country := u country;
     Position := u "MF"; League := u "LaLiga"; Shirt_Number := u shirt_number |}.

Definition coach : player_row :=
  {| Name := u "Hansi Flick"; Team := u "FC Barcelona"; Country := u "";
     Position := u "Manager"; League := u "LaLiga"; Shirt_Number := u "" |}.

Definition barcelona : club_cfg :=
  {| team := u "FC Barcelona"; league := u "LaLiga";
     urls := [ u "https://en.wikipedia.org/wiki/2025%E2%80%9326_FC_Barcelona_season";
               u "https://en.wikipedia.org/wiki/2024%E2%80%9325_FC_Barcelona_season" ] |}.

End Sample.

(** * Properties *)

(** ** Text *)

Lemma str_eqb_eq (a b : pystr) : str_eqb a b = true <-> a = b.
Proof.
  revert b. induction a as [|x a IH]; intros [|y b]; simpl; split;
    try congruence; try discriminate.
  - rewrite andb_true_iff, N.eqb_eq, IH. intros [-> ->]. reflexivity.
  - intros [= -> ->]. rewrite andb_true_iff, N.eqb_eq, IH. auto.
Qed.

Lemma str_eqb_refl (a : pystr) : str_eqb a a = true.
Proof. apply str_eqb_eq. reflexivity. Qed.

Lemma str_in_In (a : pystr) (l : list pystr) : str_in a l = true <-> In a l.
Proof.
  unfold str_in. rewrite existsb_exists. split.
  - intros (x & Hx & Heq). apply str_eqb_eq in Heq. subst. assumption.
  - intros H. exists a. split; [assumption | apply str_eqb_refl].
Qed.

Lemma nonempty_false {A} (l : list A) : nonempty l = false <-> l = [].
Proof. destruct l; simpl; split; congruence. Qed.

Lemma nonempty_true {A} (l : list A) : nonempty l = true <-> l <> [].
Proof. destruct l; simpl; split; congruence. Qed.

(** ** Table classifier and selector *)

Section Selector.
Context `{U : Unicode}.

(** C5.  Classifier monotonicity: a table that passes the strict
    classification ([require_country=True]) passes the loose one
    ([require_country=False]) too. *)
Theorem strict_implies_loose (table : node) :
  is_player_table table true = true ->
  is_player_table table false = true.
Proof.
  unfold is_player_table.
  destruct (negb (nonempty (th_headers table))); [discriminate |].
  cbv zeta. intros H.
  apply andb_true_iff in H as [Hpp Hc].
  rewrite Hpp, Hc. reflexivity.
Qed.

(** While no wikitable passes the strict test, the sibling loop keeps the
    fallback it has, or takes the first wikitable that passes the loose
    test. *)
Lemma scan_siblings_no_strict (fallback : option node) (sibs : list node) :
  (forall t, In t (List.filter is_wikitable sibs) ->
             is_player_table t true = false) ->
  scan_siblings fallback sibs =
  Pending (match fallback with
           | Some fb => Some fb
           | None => List.find (fun t => is_player_table t false)
                               (List.filter is_wikitable sibs)
           end).
Proof.
  revert fallback. induction sibs as [|sib rest IH]; intros fallback Hstrict.
  - destruct fallback; reflexivity.
  - simpl in *. destruct (is_wikitable sib) eqn:Hw.
    + rewrite (Hstrict sib (or_introl eq_refl)).
      assert (Hrest : forall t, In t (List.filter is_wikitable rest) ->
                                is_player_table t true = false)
        by (intros t Ht; apply Hstrict; right; assumption).
      destruct fallback as [fb|]; simpl.
      * apply (IH (Some fb) Hrest).
      * destruct (is_player_table sib false) eqn:Hl.
        -- apply (IH (Some sib) Hrest).
        -- apply (IH None Hrest).
    + apply IH, Hstrict.
Qed.

Lemma find_app_first {A} (p : A -> bool) (l1 l2 : list A) :
  List.find p (l1 ++ l2) =
  match List.find p l1 with Some x => Some x | None => List.find p l2 end.
Proof.
  induction l1 as [|x l1 IH]; simpl; [reflexivity |].
  destruct (p x); [reflexivity | apply IH].
Qed.

Lemma scan_headlines_no_strict (fallback : option node)
      (sites : list (node * list node)) :
  (forall t, In t (flat_map site_tables sites) ->
             is_player_table t true = false) ->
  scan_headlines fallback sites =
  Pending (match fallback with
           | Some fb => Some fb
           | None => List.find (fun t => is_player_table t false)
                               (flat_map site_tables sites)
           end).
Proof.
  revert fallback. induction sites as [|[span after] rest IH];
    intros fallback Hstrict.
  - destruct fallback; reflexivity.
  - simpl in Hstrict. simpl scan_headlines.
    assert (Hrest : forall t, In t (flat_map site_tables rest) ->
                              is_player_table t true = false)
      by (intros t Ht; apply Hstrict, in_or_app; right; assumption).
    simpl flat_map. unfold site_tables at 1. simpl fst. simpl snd.
    unfold site_tables at 1 in Hstrict. simpl in Hstrict.
    destruct (is_squad_heading span).
    + rewrite scan_siblings_no_strict
        by (intros t Ht; apply Hstrict, in_or_app; left; assumption).
      rewrite (IH _ Hrest), find_app_first.
      destruct fallback as [fb|]; [reflexivity |].
      destruct (List.find _ (List.filter is_wikitable (following_tags after)));
        reflexivity.
    + simpl. apply IH, Hrest.
Qed.

(** C1 (amended).  Fallback tiering: when no wikitable among the tags that
    follow a squad heading, up to the end of its parent, passes the strict
    classification and at least one of them passes the loose one,
    [find_first_team_table] returns the first such loose table; the
    wikitables of the rest of the page, strict or not, play no part. *)
Theorem loose_near_heading_outranks_page_scan (soup : node) :
  (forall t, In t (heading_tables soup) -> is_player_table t true = false) ->
  (exists t, In t (heading_tables soup) /\ is_player_table t false = true) ->
  exists t,
    find_first_team_table soup = Some t
    /\ In t (heading_tables soup)
    /\ is_player_table t false = true
    /\ List.find (fun t => is_player_table t false) (heading_tables soup) = Some t.
Proof.
  intros Hstrict (t0 & Hin & Hloose).
  unfold find_first_team_table.
  rewrite (scan_headlines_no_strict None) by exact Hstrict.
  fold (heading_tables soup).
  destruct (List.find (fun t => is_player_table t false) (heading_tables soup))
    as [t|] eqn:Hfind.
  - exists t. apply find_some in Hfind as Hfound. destruct Hfound. auto.
  - exfalso. pose proof (find_none _ _ Hfind t0 Hin) as Hn. simpl in Hn.
    congruence.
Qed.

End Selector.

Lemma strict_implies_loose_witness :
  is_player_table (U := ascii_unicode) Sample.strict_table true = true
  /\ is_player_table (U := ascii_unicode) Sample.strict_table false = true.
Proof.
  split; [vm_compute; reflexivity |].
  apply (strict_implies_loose (U := ascii_unicode) Sample.strict_table).
  vm_compute. reflexivity.
Defined.

Lemma loose_near_heading_outranks_page_scan_witness :
  List.find (fun t => is_player_table (U := ascii_unicode) t true)
            (page_wikitables Sample.page_loose_near_heading)
  = Some Sample.strict_table
  /\ exists t,
      find_first_team_table (U := ascii_unicode) Sample.page_loose_near_heading
      = Some t
      /\ In t (heading_tables (U := ascii_unicode) Sample.page_loose_near_heading)
      /\ is_player_table (U := ascii_unicode) t false = true
      /\ List.find (fun t => is_player_table (U := ascii_unicode) t false)
                   (heading_tables (U := ascii_unicode)
                                   Sample.page_loose_near_heading) = Some t.
Proof.
  split; [vm_compute; reflexivity |].
  apply (loose_near_heading_outranks_page_scan (U := ascii_unicode)
           Sample.page_loose_near_heading).
  - intros t Ht. vm_compute in Ht. destruct Ht as [<- | []].
    vm_compute. reflexivity.
  - exists Sample.loose_table. split; [vm_compute; left | vm_compute]; reflexivity.
Defined.

(** C1 as stated fails: the table next to the squad heading, the first
    one met walking forward, passes the loose test and not the strict
    one, and the search returns the strict table of the next section,
    which is a later sibling of the heading. *)
Lemma strict_table_of_next_section_returned :
  nearest_heading_tables (U := ascii_unicode) Sample.page_strict_in_next_section
  = [Sample.loose_table]
  /\ is_player_table (U := ascii_unicode) Sample.loose_table true = false
  /\ is_player_table (U := ascii_unicode) Sample.loose_table false = true
  /\ find_first_team_table (U := ascii_unicode) Sample.page_strict_in_next_section
     = Some Sample.strict_table.
Proof. vm_compute. repeat split; reflexivity. Qed.

(** ** Column inference *)

Lemma enumerate_from_snoc {A} (start : nat) (l : list A) (x : A) :
  enumerate_from start (l ++ [x])
  = enumerate_from start l ++ [(start + length l, x)].
Proof.
  revert start. induction l as [|y l IH]; intros start; simpl.
  - rewrite Nat.add_0_r. reflexivity.
  - rewrite IH.
    replace (start + S (length l)) with (S start + length l) by lia.
    reflexivity.
Qed.

Lemma infer_columns_snoc (headers : list pystr) (header : pystr) :
  infer_columns (headers ++ [header])
  = assign_header (infer_columns headers) (length headers) header.
Proof.
  unfold infer_columns. rewrite enumerate_from_snoc, fold_left_app.
  reflexivity.
Qed.

(** A turn of the loop moves the column of the header's role, and no
    other. *)
Lemma column_of_assign (cols : columns) (idx : nat) (header : pystr) (r : role) :
  (header_role header = Some r ->
   column_of (assign_header cols idx header) r = Some idx)
  /\ (header_role header <> Some r ->
      column_of (assign_header cols idx header) r = column_of cols r).
Proof.
  unfold header_role, assign_header.
  destruct (is_name_header header); [|destruct (is_pos_header header);
    [|destruct (is_nat_header header); [|destruct (is_number_header header)]]];
    destruct r; simpl; split; intros H; congruence.
Qed.

(** C2 (amended).  The header loop keeps, for every role, the index of the
    last header of that role, and no column when there is none; the role
    of a header is decided by the first of the four tests it passes, in
    the order Name, Position, Nationality, ShirtNumber; so a header that
    contains "pos" is never the number column. *)
Theorem infer_columns_last_match (headers : list pystr) :
  (forall r,
      match column_of (infer_columns headers) r with
      | Some i =>
          (exists h, headers !! i = Some h /\ header_role h = Some r)
          /\ (forall j h, i < j -> headers !! j = Some h ->
                          header_role h <> Some r)
      | None => forall h, In h headers -> header_role h <> Some r
      end)
  /\ (forall h,
         (header_role h = Some RName <-> is_name_header h = true)
         /\ (header_role h = Some RPosition <->
             is_name_header h = false /\ is_pos_header h = true)
         /\ (header_role h = Some RNationality <->
             is_name_header h = false /\ is_pos_header h = false
             /\ is_nat_header h = true)
         /\ (header_role h = Some RShirtNumber <->
             is_name_header h = false /\ is_pos_header h = false
             /\ is_nat_header h = false /\ is_number_header h = true))
  /\ (forall i h, headers !! i = Some h -> contains (u "pos") h = true ->
                  col_number (infer_columns headers) <> Some i).
Proof.
  assert (Hlast : forall r,
      match column_of (infer_columns headers) r with
      | Some i =>
          (exists h, headers !! i = Some h /\ header_role h = Some r)
          /\ (forall j h, i < j -> headers !! j = Some h ->
                          header_role h <> Some r)
      | None => forall h, In h headers -> header_role h <> Some r
      end).
  { intros r. induction headers as [|header headers IH] using rev_ind.
    - destruct r; simpl; intros h [].
    - rewrite infer_columns_snoc.
      destruct (column_of_assign (infer_columns headers) (length headers)
                                 header r) as [Hhit Hmiss].
      destruct (decide (header_role header = Some r)) as [Hr | Hr].
      + rewrite (Hhit Hr). split.
        * exists header. split; [|exact Hr].
          rewrite lookup_app_r by lia. rewrite Nat.sub_diag. reflexivity.
        * intros j h Hj Hlook. apply lookup_lt_Some in Hlook.
          rewrite length_app in Hlook. simpl in Hlook. lia.
      + rewrite (Hmiss Hr).
        destruct (column_of (infer_columns headers) r) as [i|].
        * destruct IH as [(h & Hlook & Hrole) Hafter]. split.
          -- exists h. split; [|exact Hrole].
             rewrite lookup_app_l by (eapply lookup_lt_Some; eassumption).
             exact Hlook.
          -- intros j h' Hj Hlook'.
             destruct (decide (j < length headers)) as [Hlt | Hge].
             ++ rewrite lookup_app_l in Hlook' by exact Hlt. eauto.
             ++ rewrite lookup_app_r in Hlook' by lia.
                destruct (j - length headers) as [|k]; simpl in Hlook';
                  [|discriminate].
                injection Hlook' as <-. exact Hr.
        * intros h Hin. apply in_app_or in Hin as [Hin | [<- | []]];
            [apply IH; exact Hin | exact Hr]. }
  split; [exact Hlast |]. split.
  - intros h. unfold header_role.
    destruct (is_name_header h), (is_pos_header h), (is_nat_header h),
      (is_number_header h); repeat split; intros; try congruence;
      repeat match goal with H : _ /\ _ |- _ => destruct H end; congruence.
  - intros i h Hlook Hpos Hcol.
    specialize (Hlast RShirtNumber). simpl in Hlast. rewrite Hcol in Hlast.
    destruct Hlast as [(h' & Hlook' & Hrole) _].
    rewrite Hlook in Hlook'. injection Hlook' as <-.
    unfold header_role, is_pos_header in Hrole. rewrite Hpos in Hrole.
    simpl in Hrole. destruct (is_name_header h); discriminate.
Qed.

Lemma infer_columns_last_match_witness :
  (exists h, Sample.two_column_headers !! 7 = Some h
             /\ header_role h = Some RName)
  /\ (forall j h, 7 < j -> Sample.two_column_headers !! j = Some h ->
                  header_role h <> Some RName).
Proof.
  exact (proj1 (infer_columns_last_match Sample.two_column_headers) RName).
Defined.

(** C2 as stated fails: of two headers that match the Name tokens the
    loop keeps the second, whereas the first has index 0. *)
Lemma first_name_header_not_kept :
  first_index is_name_header [u "player"; u "name"] = Some 0
  /\ col_player (infer_columns [u "player"; u "name"]) = Some 1.
Proof. vm_compute. split; reflexivity. Qed.

Section ImplicitNumber.
Context `{U : Unicode}.

Lemma implicit_number_cases (table : node) (headers : list pystr) (cols : columns) :
  col_number cols = None -> headers <> [] ->
  implicit_number table headers cols =
  match first_cells table with
  | [] => cols
  | first_cell :: _ =>
      if numeric_or_empty (get_text_strip [] first_cell)
      then shift_columns cols else cols
  end.
Proof.
  intros Hnum Hheaders. apply nonempty_true in Hheaders.
  unfold implicit_number. rewrite Hnum, Hheaders. reflexivity.
Qed.

(** C3 (amended).  Implicit shirt-number column: for a table whose header
    row assigned no ShirtNumber column and has a header cell, the first
    cells of the first five data rows that have cells are sampled.  When
    there is a sampled value and all of them are numeric or empty, column
    0 is the ShirtNumber column and every other assigned index goes up by
    one; when nothing is sampled, or the first sampled value is neither
    numeric nor empty, the assignment of the header row stands. *)
Theorem implicit_number_column (table header_row : node) :
  let headers := header_texts header_row in
  let cols := infer_columns headers in
  let sample := map (get_text_strip []) (first_cells table) in
  col_number cols = None -> headers <> [] ->
  (sample <> [] -> forallb numeric_or_empty sample = true ->
   table_columns table header_row
   = {| col_player := option_map S (col_player cols);
        col_pos := option_map S (col_pos cols);
        col_nat := option_map S (col_nat cols);
        col_number := Some 0 |})
  /\ (sample = [] -> table_columns table header_row = cols)
  /\ (forall first rest,
         sample = first :: rest -> numeric_or_empty first = false ->
         table_columns table header_row = cols).
Proof.
  cbv zeta. intros Hnum Hheaders. unfold table_columns.
  rewrite (implicit_number_cases _ _ _ Hnum Hheaders).
  destruct (first_cells table) as [|first_cell others]; simpl.
  - repeat split; try reflexivity. intros H. congruence.
  - repeat split.
    + intros _ Hall. apply andb_true_iff in Hall as [-> _].
      unfold shift_columns, shift_column.
      destruct (col_player _), (col_pos _), (col_nat _);
        repeat rewrite Nat.add_1_r; reflexivity.
    + discriminate.
    + intros first rest [= <- _] ->. reflexivity.
Qed.

End ImplicitNumber.

Lemma implicit_number_column_witness :
  table_columns (U := ascii_unicode) Sample.unlabelled_column_table
                Sample.unlabelled_column_header
  = {| col_player := Some 2; col_pos := Some 3; col_nat := Some 4;
       col_number := Some 0 |}.
Proof.
  apply (proj1 (implicit_number_column (U := ascii_unicode)
                  Sample.unlabelled_column_table Sample.unlabelled_column_header
                  ltac:(vm_compute; reflexivity) ltac:(vm_compute; discriminate)));
    vm_compute; [discriminate | reflexivity].
Defined.

(** C3 as stated fails.  A table without data rows has no sampled value,
    so that all of them are numeric or empty, and column 0 is not taken.
    And of the sampled values "7" and a dash the code reads the first
    only: column 0 is taken although not all of them are numeric or
    empty. *)
Lemma implicit_number_not_all_samples :
  (first_cells Sample.header_only_table = []
   /\ option_map (table_columns (U := ascii_unicode) Sample.header_only_table)
                 (find (is_tag (u "tr")) Sample.header_only_table)
      = Some {| col_player := Some 0; col_pos := Some 1; col_nat := Some 2;
                col_number := None |})
  /\ (map (get_text_strip (U := ascii_unicode) [])
          (first_cells Sample.unlabelled_number_table) = [u "7"; u "—"]
      /\ forallb (numeric_or_empty (U := ascii_unicode)) [u "7"; u "—"] = false
      /\ option_map (table_columns (U := ascii_unicode)
                       Sample.unlabelled_number_table)
                    (find (is_tag (u "tr")) Sample.unlabelled_number_table)
         = Some {| col_player := Some 1; col_pos := Some 2; col_nat := Some 3;
                   col_number := Some 0 |}).
Proof. vm_compute. repeat split; reflexivity. Qed.

(** ** Club driver *)

Section Club.
Context `{U : Unicode}.
Variable fetch_soup : pystr -> option node.

Lemma try_urls_step (team league url : pystr) (partial_rows : list player_row)
      (rest : list pystr) :
  try_urls fetch_soup team league partial_rows (url :: rest) =
  let rows := roster_of_url fetch_soup team league url in
  if nonempty rows then
    if MIN_PLAYER_THRESHOLD <=? length rows then rows
    else try_urls fetch_soup team league rows rest
  else try_urls fetch_soup team league partial_rows rest.
Proof.
  simpl. unfold roster_of_url.
  destruct (fetch_soup url) as [soup|]; [|reflexivity].
  destruct (find_first_team_table soup); reflexivity.
Qed.

Lemma try_urls_below_threshold (team league : pystr) (urls : list pystr) :
  forall partial_rows,
  (forall url, In url urls ->
     length (roster_of_url fetch_soup team league url) < MIN_PLAYER_THRESHOLD) ->
  (try_urls fetch_soup team league partial_rows urls
     = (if nonempty partial_rows then partial_rows else [])
   /\ forall url, In url urls -> roster_of_url fetch_soup team league url = [])
  \/ (exists before url after,
         urls = before ++ url :: after
         /\ try_urls fetch_soup team league partial_rows urls
            = roster_of_url fetch_soup team league url
         /\ roster_of_url fetch_soup team league url <> []
         /\ forall url', In url' after ->
                         roster_of_url fetch_soup team league url' = []).
Proof.
  induction urls as [|url rest IH]; intros partial_rows Hbelow.
  - left. split; [reflexivity | intros url []].
  - rewrite try_urls_step. cbv zeta.
    assert (Hrest : forall url', In url' rest ->
              length (roster_of_url fetch_soup team league url')
              < MIN_PLAYER_THRESHOLD)
      by (intros url' Hin; apply Hbelow; right; exact Hin).
    pose proof (Hbelow url (or_introl eq_refl)) as Hurl.
    destruct (nonempty (roster_of_url fetch_soup team league url)) eqn:Hne.
    + apply Nat.leb_gt in Hurl. rewrite Hurl.
      right. destruct (IH (roster_of_url fetch_soup team league url) Hrest)
        as [[Hres Hempty] | (before & url' & after & Hsplit & Hres & Hnz & Hempty)].
      * exists [], url, rest. rewrite Hne in Hres.
        repeat split; [exact Hres | apply nonempty_true; exact Hne | exact Hempty].
      * exists (url :: before), url', after. subst rest. repeat split; assumption.
    + apply nonempty_false in Hne.
      destruct (IH partial_rows Hrest)
        as [[Hres Hempty] | (before & url' & after & Hsplit & Hres & Hnz & Hempty)].
      * left. split; [exact Hres |]. intros url' [<- | Hin]; auto.
      * right. exists (url :: before), url', after. subst rest.
        repeat split; assumption.
Qed.

(** C4 (amended).  When every URL of a club yields a roster below the
    threshold, [fetch_club_squad] returns the roster of the last URL that
    yielded a non-empty one, and no rows when no URL did. *)
Theorem partial_roster_is_last_nonempty (club : club_cfg) :
  (forall url, In url (urls club) ->
     length (roster_of_url fetch_soup (team club) (league club) url)
     < MIN_PLAYER_THRESHOLD) ->
  (fetch_club_squad fetch_soup club = []
   /\ forall url, In url (urls club) ->
        roster_of_url fetch_soup (team club) (league club) url = [])
  \/ (exists before url after,
         urls club = before ++ url :: after
         /\ fetch_club_squad fetch_soup club
            = roster_of_url fetch_soup (team club) (league club) url
         /\ roster_of_url fetch_soup (team club) (league club) url <> []
         /\ forall url', In url' after ->
              roster_of_url fetch_soup (team club) (league club) url' = []).
Proof.
  intros Hbelow. unfold fetch_club_squad.
  exact (try_urls_below_threshold (team club) (league club) (urls club) [] Hbelow).
Qed.

End Club.

Lemma partial_roster_is_last_nonempty_witness :
  (fetch_club_squad (U := ascii_unicode) Sample.web Sample.barcelona = []
   /\ forall url, In url (urls Sample.barcelona) ->
        roster_of_url (U := ascii_unicode) Sample.web
                      (team Sample.barcelona) (league Sample.barcelona) url = [])
  \/ (exists before url after,
         urls Sample.barcelona = before ++ url :: after
         /\ fetch_club_squad (U := ascii_unicode) Sample.web Sample.barcelona
            = roster_of_url (U := ascii_unicode) Sample.web
                            (team Sample.barcelona) (league Sample.barcelona) url
         /\ roster_of_url (U := ascii_unicode) Sample.web
                          (team Sample.barcelona) (league Sample.barcelona) url <> []
         /\ forall url', In url' after ->
              roster_of_url (U := ascii_unicode) Sample.web
                            (team Sample.barcelona) (league Sample.barcelona) url' = []).
Proof.
  apply (partial_roster_is_last_nonempty (U := ascii_unicode) Sample.web
                                         Sample.barcelona).
  intros url Hin. simpl in Hin. destruct Hin as [<- | [<- | []]];
    vm_compute; lia.
Defined.

(** C4 as stated fails: the first URL yields two players, the second one,
    both below the threshold, and the squad returned is the roster of the
    second URL, not the larger one. *)
Lemma last_partial_roster_not_greatest :
  map (fun url => length (roster_of_url (U := ascii_unicode) Sample.web
                            (team Sample.barcelona) (league Sample.barcelona) url))
      (urls Sample.barcelona) = [2; 1]
  /\ length (fetch_club_squad (U := ascii_unicode) Sample.web Sample.barcelona) = 1.
Proof. vm_compute. split; reflexivity. Qed.

(** ** Shirt numbers *)

Section Numbers.
Context `{U : Unicode}.

Lemma flush_app (run cur : pystr) :
  run <> [] -> flush (rev run ++ cur) = [rev cur ++ run].
Proof.
  intros Hrun. unfold flush.
  destruct (rev run ++ cur) as [|c w] eqn:Heq.
  - apply app_eq_nil in Heq as [Hrev _].
    apply (f_equal (@rev N)) in Hrev. rewrite rev_involutive in Hrev.
    contradiction.
  - rewrite <- Heq, rev_app_distr, rev_involutive. reflexivity.
Qed.

(** Reading a run that ends: the run closes the word being read. *)
Lemma findall_digits_from_run (run post cur : pystr) :
  forallb isdecimal run = true -> run_ends post ->
  findall_digits_from cur (run ++ post)
  = flush (rev run ++ cur) ++ findall_digits_from [] (tail post).
Proof.
  revert cur. induction run as [|c run IH]; intros cur Hrun Hends; simpl.
  - destruct post as [|d post]; simpl.
    + rewrite app_nil_r. reflexivity.
    + simpl in Hends. rewrite Hends. reflexivity.
  - simpl in Hrun. apply andb_true_iff in Hrun as [Hc Hrun].
    rewrite Hc, (IH (c :: cur) Hrun Hends), <- app_assoc. reflexivity.
Qed.

(** Characters that are not [\d] are passed over. *)
Lemma findall_digits_from_skip (pre a : pystr) :
  existsb isdecimal pre = false ->
  findall_digits_from [] (pre ++ a) = findall_digits_from [] a.
Proof.
  induction pre as [|c pre IH]; intros Hpre; simpl; [reflexivity |].
  simpl in Hpre. apply orb_false_iff in Hpre as [Hc Hpre].
  rewrite Hc. simpl. apply IH, Hpre.
Qed.

Lemma findall_digits_none (a : pystr) :
  existsb isdecimal a = false -> findall_digits a = [].
Proof.
  intros Ha. unfold findall_digits.
  rewrite <- (app_nil_r a), findall_digits_from_skip by exact Ha.
  reflexivity.
Qed.

(** Every text starts with a run, possibly empty, that ends. *)
Lemma leading_run (a : pystr) :
  exists run post,
    a = run ++ post /\ forallb isdecimal run = true /\ run_ends post.
Proof.
  induction a as [|c a (run & post & Heq & Hrun & Hends)].
  - exists [], []. repeat split.
  - destruct (isdecimal c) eqn:Hc.
    + exists (c :: run), post. subst a. simpl. rewrite Hc. repeat split; assumption.
    + exists [], (c :: a). repeat split. exact Hc.
Qed.

(** The first match of [\d+] in a text with a [\d] character: the text
    before it has no such character, and the match is a run that ends. *)
Lemma findall_digits_first (a : pystr) :
  existsb isdecimal a = true ->
  exists pre run post,
    a = pre ++ run ++ post
    /\ existsb isdecimal pre = false
    /\ run <> [] /\ forallb isdecimal run = true /\ run_ends post
    /\ head (findall_digits a) = Some run.
Proof.
  unfold findall_digits. induction a as [|c a IH]; intros Ha; [discriminate |].
  destruct (isdecimal c) eqn:Hc.
  - destruct (leading_run a) as (run & post & Heq & Hrun & Hends).
    exists [], (c :: run), post. subst a.
    assert (Hcrun : forallb isdecimal (c :: run) = true)
      by (simpl; rewrite Hc; exact Hrun).
    repeat split; try assumption; try discriminate.
    change (c :: run ++ post) with ((c :: run) ++ post).
    rewrite (findall_digits_from_run (c :: run) post [] Hcrun Hends).
    rewrite flush_app by discriminate. reflexivity.
  - simpl in Ha. rewrite Hc in Ha. simpl in Ha.
    destruct (IH Ha) as (pre & run & post & Heq & Hpre & Hnz & Hrun & Hends & Hhead).
    exists (c :: pre), run, post. subst a. simpl. rewrite Hc. simpl.
    repeat split; assumption.
Qed.

(** C6.  Shirt-number cleaning: the number of a row is the trimmed text of
    its number cell when that text, "-" and "/" taken out, consists of
    digits; otherwise it is the first run of digits of the text, and the
    empty string when the text has no digit. *)
Theorem shirt_number_cleaning (number_cell : node) :
  let text := get_text_strip (u " ") number_cell in
  let shirt_number := resolve_number (Some number_cell) in
  (str_isdigit (remove_char 47%N (remove_char 45%N text)) = true ->
   shirt_number = text)
  /\ (str_isdigit (remove_char 47%N (remove_char 45%N text)) = false ->
      (existsb isdecimal text = true ->
       exists pre post,
         text = pre ++ shirt_number ++ post
         /\ existsb isdecimal pre = false
         /\ shirt_number <> []
         /\ forallb isdecimal shirt_number = true
         /\ run_ends post)
      /\ (existsb isdecimal text = false -> shirt_number = [])).
Proof.
  cbv zeta. unfold resolve_number, clean_number.
  set (text := get_text_strip (u " ") number_cell).
  destruct (str_isdigit (remove_char 47%N (remove_char 45%N text))) eqn:Hpure.
  - split; [|discriminate]. intros _. rewrite andb_false_r. reflexivity.
  - split; [discriminate |]. intros _. simpl negb. rewrite andb_true_r. split.
    + intros Hdigit.
      destruct (findall_digits_first text Hdigit)
        as (pre & run & post & Heq & Hpre & Hnz & Hrun & Hends & Hhead).
      assert (Hne : nonempty text = true).
      { destruct text; [discriminate | reflexivity]. }
      rewrite Hne.
      destruct (findall_digits text) as [|first rest]; [discriminate |].
      injection Hhead as ->. exists pre, post. repeat split; assumption.
    + intros Hnone. rewrite (findall_digits_none text Hnone).
      destruct (nonempty text) eqn:Hne; [reflexivity |].
      apply nonempty_false in Hne. exact Hne.
Qed.

End Numbers.

Lemma shirt_number_cleaning_witness :
  exists pre post,
    get_text_strip (U := ascii_unicode) (u " ") (Sample.td " No. 7 ")
    = pre ++ resolve_number (U := ascii_unicode) (Some (Sample.td " No. 7 ")) ++ post
    /\ existsb (isdecimal (Unicode := ascii_unicode)) pre = false
    /\ resolve_number (U := ascii_unicode) (Some (Sample.td " No. 7 ")) <> []
    /\ forallb (isdecimal (Unicode := ascii_unicode))
               (resolve_number (U := ascii_unicode) (Some (Sample.td " No. 7 "))) = true
    /\ run_ends (U := ascii_unicode) post.
Proof.
  apply (proj2 (shirt_number_cleaning (U := ascii_unicode) (Sample.td " No. 7 ")));
    vm_compute; reflexivity.
Defined.

(** The three numbers of the specification: a range is kept, a number is
    taken out of its label, a dash leaves nothing. *)
Example shirt_number_examples :
  resolve_number (U := ascii_unicode) (Some (Sample.td "9/10")) = u "9/10"
  /\ resolve_number (U := ascii_unicode) (Some (Sample.td " No. 7 ")) = u "7"
  /\ resolve_number (U := ascii_unicode) (Some (Sample.td "—")) = u "".
Proof. vm_compute. repeat split; reflexivity. Qed.

(** ** Rows *)

Section Rows.
Context `{U : Unicode}.

(** [get_cell] gives the empty value exactly when the role has no column
    or the column lies beyond the row; otherwise it gives the cell at the
    index, which the list has. *)
Lemma get_cell_exc_returns (cells : list node) (idx : option nat) :
  get_cell_exc cells idx = Returns (get_cell cells idx).
Proof.
  unfold get_cell, get_cell_exc, item. destruct idx as [i|]; [|reflexivity].
  destruct (Nat.leb_spec (length cells) i) as [Hle | Hlt]; [reflexivity |].
  destruct (nth_error cells i) as [cell|] eqn:Hnth; [reflexivity |].
  apply nth_error_None in Hnth. lia.
Qed.

Lemma get_cell_spec (cells : list node) (idx : option nat) :
  (get_cell cells idx = None <->
   idx = None \/ exists i, idx = Some i /\ length cells <= i)
  /\ (forall i, idx = Some i -> i < length cells ->
        exists cell, nth_error cells i = Some cell
                     /\ get_cell cells idx = Some cell).
Proof.
  unfold get_cell, get_cell_exc, item. destruct idx as [i|].
  - destruct (Nat.leb_spec (length cells) i) as [Hle | Hlt].
    + split.
      * split; [intros _; right; exists i; auto | reflexivity].
      * intros j [= <-] Hj. lia.
    + destruct (nth_error cells i) as [cell|] eqn:Hnth.
      * split.
        -- split; [discriminate |].
           intros [H | (j & [= <-] & Hj)]; [discriminate | lia].
        -- intros j [= <-] _. exists cell. auto.
      * apply nth_error_None in Hnth. lia.
  - split.
    + split; [intros _; left; reflexivity | reflexivity].
    + intros i H. discriminate.
Qed.

Lemma item_raises {A} (l : list A) (i : nat) :
  item l i = IndexError <-> length l <= i.
Proof.
  unfold item. destruct (nth_error l i) as [x|] eqn:Hnth.
  - split; [discriminate |]. intros Hle.
    apply nth_error_None in Hle. congruence.
  - split; [intros _; apply nth_error_None; exact Hnth | reflexivity].
Qed.

Lemma raw_country_exc_returns (nat_cell player_cell : option node) :
  raw_country_exc nat_cell player_cell
  = Returns (raw_country nat_cell player_cell).
Proof.
  unfold raw_country_exc, raw_country, last_item.
  destruct nat_cell as [cell|]; [|reflexivity].
  destruct (find_all (is_tag (u "a")) cell) as [|l ls] eqn:Hlinks;
    [reflexivity |].
  simpl nonempty. cbv iota.
  destruct (last (l :: ls)) as [link|] eqn:Hlast; [reflexivity |].
  apply last_None in Hlast. discriminate.
Qed.

Lemma resolve_number_exc_returns (number_cell : option node) :
  resolve_number_exc number_cell = Returns (resolve_number number_cell).
Proof.
  unfold resolve_number_exc, resolve_number, clean_number_exc, clean_number.
  destruct number_cell as [cell|]; [|reflexivity].
  destruct (nonempty _ && negb _); [|reflexivity].
  destruct (findall_digits (get_text_strip (u " ") cell)); reflexivity.
Qed.

Lemma parse_row_exc_returns (cols : columns) (team league : pystr) (tr : node) :
  parse_row_exc cols team league tr = Returns (parse_row cols team league tr).
Proof.
  unfold parse_row_exc, parse_row.
  destruct (negb (nonempty (row_cells tr)) || (length (row_cells tr) <? 2));
    [reflexivity |].
  rewrite !get_cell_exc_returns. simpl bind.
  rewrite raw_country_exc_returns, resolve_number_exc_returns. simpl bind.
  destruct (negb (nonempty (resolve_name _))); reflexivity.
Qed.

(** C7 (amended).  Nationality cascade: when the row has a Nationality
    cell with hyperlinks, the country is the text of the last of them;
    when the cell has no hyperlink, the country is the text of the cell;
    and the flag marker of the Name cell is read exactly when the row has
    no Nationality cell, the role having no column or the row ending
    before it. *)
Theorem nationality_cascade (cols : columns) (team league : pystr) (tr : node) :
  let cells := row_cells tr in
  let nat_cell := get_cell cells (col_nat cols) in
  let player_cell := get_cell cells (col_player cols) in
  let country := raw_country nat_cell player_cell in
  (forall cell link,
      nat_cell = Some cell -> last (find_all (is_tag (u "a")) cell) = Some link ->
      country = get_text_strip [] link)
  /\ (forall cell,
         nat_cell = Some cell -> find_all (is_tag (u "a")) cell = [] ->
         country = get_text_strip (u " ") cell)
  /\ (nat_cell = None -> country = extract_country_from_cell player_cell)
  /\ (nat_cell = None <->
      col_nat cols = None
      \/ exists i, col_nat cols = Some i /\ length cells <= i)
  /\ (forall row, parse_row cols team league tr = Some row ->
                  Country row = normalize_country country).
Proof.
  cbv zeta. repeat split.
  - intros cell link Hcell Hlast. rewrite Hcell. unfold raw_country.
    rewrite Hlast. reflexivity.
  - intros cell Hcell Hlinks. rewrite Hcell. unfold raw_country.
    rewrite Hlinks. reflexivity.
  - intros Hnone. rewrite Hnone. reflexivity.
  - apply get_cell_spec.
  - apply get_cell_spec.
  - intros row Hrow. unfold parse_row in Hrow.
    destruct (negb (nonempty (row_cells tr)) || (length (row_cells tr) <? 2));
      [discriminate |].
    destruct (negb (nonempty (resolve_name _))); [discriminate |].
    injection Hrow as <-. reflexivity.
Qed.

(** C10 (amended).  A role without a column, or with a column beyond the
    end of the row, has the empty value as its cell.  The Position and the
    Shirt Number of the record are then empty, the Country is what the
    flag marker of the Name cell gives, and a row whose Name cell is
    missing yields no record.  Indexing the cells at or beyond their
    number raises [IndexError]; [get_cell] never does, for any index, and
    neither does the normalization of a row, whose list accesses all stay
    in range. *)
Theorem missing_cells_are_empty (cols : columns) (team league : pystr) (tr : node) :
  let cells := row_cells tr in
  (forall idx,
      (get_cell cells idx = None <->
       idx = None \/ exists i, idx = Some i /\ length cells <= i)
      /\ (forall i, idx = Some i -> i < length cells ->
            exists cell, nth_error cells i = Some cell
                         /\ get_cell cells idx = Some cell))
  /\ (get_cell cells (col_player cols) = None ->
      parse_row cols team league tr = None)
  /\ (forall row,
         parse_row cols team league tr = Some row ->
         (get_cell cells (col_pos cols) = None -> Position row = [])
         /\ (get_cell cells (col_number cols) = None -> Shirt_Number row = [])
         /\ (get_cell cells (col_nat cols) = None ->
             Country row = normalize_country
                             (extract_country_from_cell
                                (get_cell cells (col_player cols)))))
  /\ (forall i, item cells i = IndexError <-> length cells <= i)
  /\ (forall idx, get_cell_exc cells idx = Returns (get_cell cells idx))
  /\ parse_row_exc cols team league tr = Returns (parse_row cols team league tr).
Proof.
  cbv zeta. split; [intros idx; apply get_cell_spec |]. split; [|split].
  - intros Hname. unfold parse_row. rewrite Hname. simpl.
    destruct (negb (nonempty (row_cells tr)) || (length (row_cells tr) <? 2));
      reflexivity.
  - intros row Hrow. unfold parse_row in Hrow.
    destruct (negb (nonempty (row_cells tr)) || (length (row_cells tr) <? 2));
      [discriminate |].
    destruct (negb (nonempty (resolve_name _))); [discriminate |].
    injection Hrow as <-. simpl. repeat split; intros ->; reflexivity.
  - split; [intros i; apply item_raises |].
    split; [intros idx; apply get_cell_exc_returns | apply parse_row_exc_returns].
Qed.

End Rows.

Lemma nationality_cascade_witness :
  raw_country (U := ascii_unicode)
    (get_cell (row_cells Sample.two_nationalities_row)
              (col_nat Sample.number_pos_nat_player))
    (get_cell (row_cells Sample.two_nationalities_row)
              (col_player Sample.number_pos_nat_player))
  = get_text_strip (U := ascii_unicode) [] (Sample.link "Spain").
Proof.
  apply (proj1 (nationality_cascade (U := ascii_unicode)
                  Sample.number_pos_nat_player (u "FC Barcelona") (u "LaLiga")
                  Sample.two_nationalities_row)
               (Sample.el "td" [] [Sample.link "Brazil"; Sample.txt " ";
                                   Sample.link "Spain"])
               (Sample.link "Spain"));
    vm_compute; reflexivity.
Defined.

Lemma missing_cells_are_empty_witness :
  parse_row (U := ascii_unicode) Sample.number_pos_player
            (u "FC Barcelona") (u "LaLiga")
            (Sample.tr [Sample.td "8"; Sample.td "MF"]) = None.
Proof.
  apply (proj1 (proj2 (missing_cells_are_empty (U := ascii_unicode)
                         Sample.number_pos_player (u "FC Barcelona") (u "LaLiga")
                         (Sample.tr [Sample.td "8"; Sample.td "MF"])))).
  vm_compute. reflexivity.
Defined.

(** C7 as stated fails: a Nationality cell without a hyperlink gives its
    text, here the code after the flag, and not the alt text of the flag
    marker. *)
Lemma unlinked_nationality_is_cell_text :
  find_all (is_tag (u "a")) Sample.flag_and_code_cell = []
  /\ extract_country_from_cell (U := ascii_unicode)
       (Some Sample.flag_and_code_cell) = u "Spain"
  /\ raw_country (U := ascii_unicode) (Some Sample.flag_and_code_cell) None
     = u "ESP".
Proof. vm_compute. repeat split; reflexivity. Qed.

(** C10 as stated fails for the Nationality role: the table has no
    Nationality column, and the Country of its record is not empty, it
    comes from the flag in the Name cell. *)
Lemma missing_nationality_column_not_empty :
  option_map (fun header_row =>
                col_nat (table_columns (U := ascii_unicode)
                           Sample.loose_table header_row))
             (find (is_tag (u "tr")) Sample.loose_table) = Some None
  /\ map Country (parse_first_team_table (U := ascii_unicode)
                    (Some Sample.loose_table) (u "FC Barcelona") (u "LaLiga"))
     = [u "ESP"].
Proof. vm_compute. split; reflexivity. Qed.

(** ** Enrichment and validation *)

Section Enrichment.
Context `{U : Unicode}.
Variable fetch_soup : pystr -> option node.

Lemma extracted_kept_refl (row : player_row) : extracted_kept row row.
Proof. unfold extracted_kept. repeat split; reflexivity. Qed.

Lemma extracted_kept_trans (r1 r2 r3 : player_row) :
  extracted_kept r1 r2 -> extracted_kept r2 r3 -> extracted_kept r1 r3.
Proof.
  unfold extracted_kept.
  intros (Hn & Ht & Hp & Hl & Hc & Hs) (Hn' & Ht' & Hp' & Hl' & Hc' & Hs').
  repeat split; try congruence.
  - intros H. specialize (Hc H). rewrite <- Hc in H. rewrite (Hc' H). exact Hc.
  - intros H. specialize (Hs H). rewrite <- Hs in H. rewrite (Hs' H). exact Hs.
Qed.

(** The body of the loop writes a Country or a Shirt Number only where the
    row has a blank one. *)
Lemma fill_row_kept (row : player_row) :
  extracted_kept row (fill_row fetch_soup row).
Proof.
  unfold fill_row, extracted_kept.
  destruct (search_player_info fetch_soup (Name row) (Team row))
    as [found_country found_number].
  destruct (nonempty (strip (Country row))) eqn:Hc,
           (nonempty (strip (Shirt_Number row))) eqn:Hs;
    simpl;
    destruct (nonempty found_country), (nonempty found_number); simpl;
    repeat split; intros H; try reflexivity;
    try (apply nonempty_false in Hc; contradiction);
    try (apply nonempty_false in Hs; contradiction).
Qed.

Lemma fill_loop_kept (rows : list nat) :
  forall (heap : gmap nat player_row) (valid_rows : list nat) l row,
    heap !! l = Some row ->
    exists row',
      (fill_loop fetch_soup heap valid_rows rows).1 !! l = Some row'
      /\ extracted_kept row row'.
Proof.
  induction rows as [|r rest IH]; intros heap valid_rows l row Hl; simpl.
  - exists row. split; [exact Hl | apply extracted_kept_refl].
  - destruct (heap !! r) as [rw|] eqn:Hr; [|apply IH; exact Hl].
    destruct (negb (is_valid_player_row rw)); [apply IH; exact Hl |].
    destruct (decide (l = r)) as [-> | Hne].
    + rewrite Hr in Hl. injection Hl as ->.
      destruct (IH (<[r := fill_row fetch_soup row]> heap) (valid_rows ++ [r])
                   r (fill_row fetch_soup row)) as (row' & Hrow' & Hkept).
      { apply lookup_insert_eq. }
      exists row'. split; [exact Hrow' |].
      eapply extracted_kept_trans; [apply fill_row_kept | exact Hkept].
    + apply IH. rewrite lookup_insert_ne by congruence. exact Hl.
Qed.

(** X18.  The pass on any rows, also rows that no parser made: it leaves
    in every row the Name, Team, Position and League as they are, and the
    Country and the Shirt Number too unless they are empty or blank
    (empty once trimmed). *)
Theorem enrichment_keeps_extracted_values
        (heap : gmap nat player_row) (rows : list nat) (l : nat) (row : player_row) :
  heap !! l = Some row ->
  exists row',
    (fill_missing_data fetch_soup heap rows).1 !! l = Some row'
    /\ Name row' = Name row /\ Team row' = Team row
    /\ Position row' = Position row /\ League row' = League row
    /\ (strip (Country row) <> [] -> Country row' = Country row)
    /\ (strip (Shirt_Number row) <> [] -> Shirt_Number row' = Shirt_Number row).
Proof.
  intros Hl. exact (fill_loop_kept rows heap [] l row Hl).
Qed.

End Enrichment.

Lemma enrichment_keeps_extracted_values_witness :
  exists row',
    (fill_missing_data (U := ascii_unicode) Sample.offline
       {[ 0 := Sample.pedri "Spain" "" ]} [0; 0]).1 !! 0 = Some row'
    /\ Name row' = Name (Sample.pedri "Spain" "")
    /\ Team row' = Team (Sample.pedri "Spain" "")
    /\ Position row' = Position (Sample.pedri "Spain" "")
    /\ League row' = League (Sample.pedri "Spain" "")
    /\ (strip (U := ascii_unicode) (Country (Sample.pedri "Spain" "")) <> [] ->
        Country row' = Country (Sample.pedri "Spain" ""))
    /\ (strip (U := ascii_unicode) (Shirt_Number (Sample.pedri "Spain" "")) <> [] ->
        Shirt_Number row' = Shirt_Number (Sample.pedri "Spain" "")).
Proof.
  apply (enrichment_keeps_extracted_values (U := ascii_unicode) Sample.offline
           {[ 0 := Sample.pedri "Spain" "" ]} [0; 0] 0 (Sample.pedri "Spain" "")).
  reflexivity.
Defined.

(** A Country that is a single space, which the table parser never
    emits, counts as missing: the pass replaces it with the country of the
    table of known players; an extracted Country is kept. *)
Lemma blank_country_is_overwritten :
  Country (Sample.pedri " " "8") = [32%N]
  /\ Country <$> (fill_missing_data (U := ascii_unicode) Sample.offline
                    {[ 0 := Sample.pedri " " "8" ]} [0]).1 !! 0
     = Some (u "ESP")
  /\ Country <$> (fill_missing_data (U := ascii_unicode) Sample.offline
                    {[ 0 := Sample.pedri "Spain" "8" ]} [0]).1 !! 0
     = Some (u "Spain").
Proof. vm_compute. repeat split; reflexivity. Qed.

(** ** Names *)

Section Names.
Context `{U : Unicode}.
Variable fetch_soup : pystr -> option node.

Lemma lstrip_starts_ok (a : pystr) : starts_ok (lstrip a).
Proof.
  induction a as [|c a IH]; simpl; [exact I |].
  destruct (isspace c) eqn:Hc; [exact IH | exact Hc].
Qed.

Lemma lstrip_suffix (a : pystr) : exists w, a = w ++ lstrip a.
Proof.
  induction a as [|c a [w Hw]]; simpl; [exists []; reflexivity |].
  destruct (isspace c).
  - exists (c :: w). simpl. f_equal. exact Hw.
  - exists []. reflexivity.
Qed.

Lemma lstrip_fixed (a : pystr) : starts_ok a -> lstrip a = a.
Proof. destruct a as [|c a]; simpl; [reflexivity | intros ->; reflexivity]. Qed.

Lemma rstrip_prefix (a : pystr) : exists w, a = rstrip a ++ w.
Proof.
  unfold rstrip. destruct (lstrip_suffix (rev a)) as [w Hw].
  exists (rev w). rewrite <- rev_app_distr, <- Hw, rev_involutive. reflexivity.
Qed.

Lemma length_strip (a : pystr) : length (strip a) <= length a.
Proof.
  unfold strip. destruct (rstrip_prefix (lstrip a)) as [w Hw].
  destruct (lstrip_suffix a) as [v Hv].
  apply (f_equal (@length N)) in Hw, Hv. rewrite length_app in Hw, Hv. lia.
Qed.

Lemma strip_trimmed (a : pystr) : trimmed (strip a).
Proof.
  unfold trimmed, strip. split.
  - pose proof (lstrip_starts_ok a) as Hstart.
    destruct (rstrip_prefix (lstrip a)) as [w Hw].
    destruct (rstrip (lstrip a)) as [|c t]; [exact I |].
    rewrite Hw in Hstart. exact Hstart.
  - unfold rstrip. rewrite rev_involutive. apply lstrip_starts_ok.
Qed.

Lemma trimmed_strip (a : pystr) : trimmed a -> strip a = a.
Proof.
  intros [Hstart Hend]. unfold strip, rstrip.
  rewrite (lstrip_fixed a Hstart), (lstrip_fixed (rev a) Hend).
  apply rev_involutive.
Qed.

Lemma starts_ok_app (a b : pystr) : a <> [] -> starts_ok a -> starts_ok (a ++ b).
Proof. destruct a; [congruence | intros _ H; exact H]. Qed.

(** Trimmed pieces, none of them empty, join to a trimmed text, whatever
    the separator. *)
Lemma join_trimmed (sep : pystr) (parts : list pystr) :
  (forall p, In p parts -> p <> [] /\ trimmed p) ->
  trimmed (join sep parts) /\ (parts <> [] -> join sep parts <> []).
Proof.
  induction parts as [|p rest IH]; intros Hparts.
  - split; [split; exact I | congruence].
  - destruct (Hparts p (or_introl eq_refl)) as [Hp [Hps Hpe]].
    destruct rest as [|q rest].
    + simpl. split; [split; assumption | intros _; exact Hp].
    + destruct IH as [[Hjs Hje] Hjn];
        [intros r Hr; apply Hparts; right; exact Hr |].
      specialize (Hjn ltac:(discriminate)).
      change (join sep (p :: q :: rest)) with (p ++ sep ++ join sep (q :: rest)).
      split; [split |].
      * apply starts_ok_app; assumption.
      * rewrite !rev_app_distr, <- app_assoc. apply starts_ok_app; [|exact Hje].
        intros Hrev. apply Hjn.
        rewrite <- (rev_involutive (join sep (q :: rest))), Hrev. reflexivity.
      * intros _ Happ. apply app_eq_nil in Happ as [Hnil _]. contradiction.
Qed.

Lemma get_text_strip_trimmed (sep : pystr) (n : node) :
  trimmed (get_text_strip sep n).
Proof.
  unfold get_text_strip. apply join_trimmed.
  intros p Hp. apply filter_In in Hp as [Hin Hne].
  apply in_map_iff in Hin as (s & <- & _). split; [|apply strip_trimmed].
  intros Heq. rewrite Heq in Hne. discriminate.
Qed.

Lemma resolve_name_trimmed (player_cell : option node) :
  trimmed (resolve_name player_cell).
Proof.
  unfold resolve_name. destruct player_cell as [cell|]; [|split; exact I].
  destruct (find (is_tag (u "a")) cell); apply get_text_strip_trimmed.
Qed.

(** What the row loop emits: the row has two cells or more and the name
    is trimmed and not empty. *)
Lemma parse_row_Some (cols : columns) (team league : pystr) (tr : node)
      (row : player_row) :
  parse_row cols team league tr = Some row ->
  2 <= length (row_cells tr) /\ Name row <> [] /\ trimmed (Name row).
Proof.
  unfold parse_row. intros Hrow.
  destruct (negb (nonempty (row_cells tr)) || (length (row_cells tr) <? 2))
    eqn:Hcells; [discriminate |].
  apply orb_false_iff in Hcells as [_ Hlen]. apply Nat.ltb_ge in Hlen.
  destruct (negb (nonempty (resolve_name _))) eqn:Hname; [discriminate |].
  injection Hrow as <-. simpl. split; [exact Hlen |]. split.
  - apply nonempty_true. apply negb_false_iff. exact Hname.
  - apply resolve_name_trimmed.
Qed.

Lemma parse_first_team_table_rows (table : option node) (team league : pystr)
      (row : player_row) :
  In row (parse_first_team_table table team league) ->
  exists cols tr, parse_row cols team league tr = Some row.
Proof.
  unfold parse_first_team_table. destruct table as [table|]; [|intros []].
  destruct (find (is_tag (u "tr")) table) as [header_row|]; [|intros []].
  intros Hin. apply list_elem_of_In, list_elem_of_omap in Hin as (tr & _ & Hrow).
  eauto.
Qed.

Lemma try_urls_rows (team league : pystr) (urls : list pystr) :
  forall partial_rows row,
    In row (try_urls fetch_soup team league partial_rows urls) ->
    In row partial_rows
    \/ exists url, In row (roster_of_url fetch_soup team league url).
Proof.
  induction urls as [|url rest IH]; intros partial_rows row Hin.
  - simpl in Hin. destruct (nonempty partial_rows); [left; exact Hin | destruct Hin].
  - rewrite try_urls_step in Hin. cbv zeta in Hin.
    destruct (nonempty (roster_of_url fetch_soup team league url));
      [|apply IH; exact Hin].
    destruct (MIN_PLAYER_THRESHOLD <=?
              length (roster_of_url fetch_soup team league url)).
    + right. exists url. exact Hin.
    + apply IH in Hin as [Hin | Hin]; [right; exists url; exact Hin | right; exact Hin].
Qed.

Lemma fetch_club_squad_rows (club : club_cfg) (row : player_row) :
  In row (fetch_club_squad fetch_soup club) ->
  Name row <> [] /\ trimmed (Name row).
Proof.
  unfold fetch_club_squad. intros Hin.
  apply try_urls_rows in Hin as [[] | [url Hin]].
  unfold roster_of_url in Hin.
  destruct (fetch_soup url) as [soup|]; [|destruct Hin].
  destruct (find_first_team_table soup) as [table|]; [|destruct Hin].
  apply parse_first_team_table_rows in Hin as (cols & tr & Hrow).
  apply parse_row_Some in Hrow. tauto.
Qed.

(** What the validator has checked of the name of a row it accepts. *)
Lemma is_valid_player_row_name (row : player_row) :
  is_valid_player_row row = true ->
  2 <= length (strip (Name row))
  /\ ~ In (lower (strip (Name row))) invalid_names.
Proof.
  unfold is_valid_player_row.
  destruct (str_in (lower (strip (Name row))) invalid_names) eqn:Hdeny;
    [discriminate |].
  destruct (length (strip (Name row)) <? 2) eqn:Hlen; [discriminate |].
  intros _. apply Nat.ltb_ge in Hlen. split; [exact Hlen |].
  intros Hin. apply str_in_In in Hin. congruence.
Qed.

(** An address the pass returns held a row the validator accepted. *)
Lemma fill_loop_valid (rows : list nat) :
  forall (heap : gmap nat player_row) (valid_rows : list nat) l,
    In l (fill_loop fetch_soup heap valid_rows rows).2 ->
    In l valid_rows
    \/ exists row, heap !! l = Some row /\ is_valid_player_row row = true.
Proof.
  induction rows as [|r rest IH]; intros heap valid_rows l Hin; simpl in Hin.
  - left. exact Hin.
  - destruct (heap !! r) as [rw|] eqn:Hr; [|apply IH; exact Hin].
    destruct (is_valid_player_row rw) eqn:Hvalid; simpl in Hin;
      [|apply IH; exact Hin].
    apply IH in Hin as [Hin | (row & Hrow & Hv)].
    + apply in_app_or in Hin as [Hin | [<- | []]]; [left; exact Hin |].
      right. exists rw. split; assumption.
    + right. destruct (decide (l = r)) as [-> | Hne].
      * exists rw. split; assumption.
      * rewrite lookup_insert_ne in Hrow by congruence.
        exists row. split; assumption.
Qed.

Lemma fill_missing_data_survivor (heap : gmap nat player_row) (rows : list nat)
      (l : nat) (row' : player_row) :
  In l (fill_missing_data fetch_soup heap rows).2 ->
  (fill_missing_data fetch_soup heap rows).1 !! l = Some row' ->
  exists row,
    heap !! l = Some row /\ is_valid_player_row row = true
    /\ Name row' = Name row.
Proof.
  unfold fill_missing_data. intros Hin Hrow'.
  apply fill_loop_valid in Hin as [[] | (row & Hrow & Hvalid)].
  exists row. split; [exact Hrow |]. split; [exact Hvalid |].
  destruct (fill_loop_kept fetch_soup rows heap [] l row Hrow)
    as (row'' & Hrow'' & Hkept).
  rewrite Hrow' in Hrow''. injection Hrow'' as <-. apply Hkept.
Qed.

(** C8.  Output Name invariant: a row that survives the fill and validate
    pass has a Name of two characters or more, also once trimmed, whose
    lowercase form, as the validator reads it, is not in the denylist;
    the records written to the output have trimmed names, so that their
    Name itself has two characters or more and a lowercase form outside
    the denylist; and the parser emits no record for a row with fewer
    than two cells or with an empty resolved Name. *)
Theorem output_name_invariant :
  (forall (heap : gmap nat player_row) (rows : list nat) l row,
      In l (fill_missing_data fetch_soup heap rows).2 ->
      (fill_missing_data fetch_soup heap rows).1 !! l = Some row ->
      2 <= length (strip (Name row)) <= length (Name row)
      /\ ~ In (lower (strip (Name row))) invalid_names)
  /\ (forall row,
         In row (main_rows fetch_soup) ->
         2 <= length (Name row) /\ ~ In (lower (Name row)) invalid_names)
  /\ (forall cols team league tr,
         (length (row_cells tr) < 2 -> parse_row cols team league tr = None)
         /\ (resolve_name (get_cell (row_cells tr) (col_player cols)) = [] ->
             parse_row cols team league tr = None))
  /\ (forall table team league row,
         In row (parse_first_team_table table team league) -> Name row <> []).
Proof.
  split; [|split; [|split]].
  - intros heap rows l row' Hin Hrow'.
    destruct (fill_missing_data_survivor heap rows l row' Hin Hrow')
      as (row & _ & Hvalid & Hname).
    apply is_valid_player_row_name in Hvalid as [Hlen Hdeny].
    rewrite Hname. pose proof (length_strip (Name row)). split; [lia | exact Hdeny].
  - intros row' Hin. unfold main_rows in Hin.
    set (all_rows := flat_map (fetch_club_squad fetch_soup) CLUBS) in *.
    destruct (fill_missing_data fetch_soup (map_seq 0 all_rows)
                                (seq 0 (length all_rows)))
      as [heap valid_rows] eqn:Hfill.
    apply list_elem_of_In, list_elem_of_omap in Hin as (l & Hl & Hrow').
    apply list_elem_of_In in Hl.
    change valid_rows with (heap, valid_rows).2 in Hl.
    change heap with (heap, valid_rows).1 in Hrow'.
    rewrite <- Hfill in Hl, Hrow'.
    destruct (fill_missing_data_survivor _ _ l row' Hl Hrow')
      as (row & Hrow & Hvalid & Hname).
    rewrite lookup_map_seq_0 in Hrow.
    assert (Hall : In row all_rows)
      by (apply list_elem_of_In, list_elem_of_lookup; eauto).
    apply in_flat_map in Hall as (club & _ & Hclub).
    apply fetch_club_squad_rows in Hclub as [_ Htrim].
    apply is_valid_player_row_name in Hvalid as [Hlen Hdeny].
    rewrite (trimmed_strip _ Htrim) in Hlen, Hdeny. rewrite Hname. auto.
  - intros cols team league tr. unfold parse_row. split.
    + intros Hlen. apply Nat.ltb_lt in Hlen. rewrite Hlen, orb_true_r.
      reflexivity.
    + intros ->. simpl.
      destruct (negb (nonempty (row_cells tr)) || (length (row_cells tr) <? 2));
        reflexivity.
  - intros table team league row Hin.
    apply parse_first_team_table_rows in Hin as (cols & tr & Hrow).
    apply parse_row_Some in Hrow. tauto.
Qed.

End Names.

Lemma output_name_invariant_witness :
  2 <= length (strip (U := ascii_unicode) (Name (Sample.pedri "Spain" "8")))
    <= length (Name (Sample.pedri "Spain" "8"))
  /\ ~ In (lower (Unicode := ascii_unicode)
                 (strip (U := ascii_unicode) (Name (Sample.pedri "Spain" "8"))))
          invalid_names.
Proof.
  apply (proj1 (output_name_invariant (U := ascii_unicode) Sample.offline)
               {[ 0 := Sample.pedri "Spain" "" ]} [0] 0 (Sample.pedri "Spain" "8")).
  - vm_compute. left. reflexivity.
  - vm_compute. reflexivity.
Defined.

(** * Further properties *)

(** ** Table selector *)

Section SelectorTiers.
Context `{U : Unicode}.

Lemma node_nested_ind (P : node -> Prop) :
  (forall s, P (Text s)) ->
  (forall name classes alt cs, Forall P cs -> P (Elem name classes alt cs)) ->
  forall n, P n.
Proof.
  intros Htext Helem. fix IH 1. intros [s | name classes alt cs].
  - apply Htext.
  - apply Helem. revert cs. fix IHcs 1. intros [|c cs].
    + constructor.
    + constructor; [apply IH | apply IHcs].
Qed.

Lemma is_player_table_not_loose (table : node) :
  is_player_table table false = false -> is_player_table table true = false.
Proof.
  unfold is_player_table.
  destruct (negb (nonempty (th_headers table))); [reflexivity |].
  cbv zeta.
  destruct (existsb _ (th_headers table) && existsb _ (th_headers table));
    [|reflexivity].
  simpl. intros H. apply orb_false_iff in H as [-> _]. reflexivity.
Qed.

(** The sibling loop returns the first wikitable that passes the strict
    test, whatever the fallback. *)
Lemma scan_siblings_strict (fallback : option node) (sibs : list node) (t : node) :
  List.find (fun t => is_player_table t true) (List.filter is_wikitable sibs)
  = Some t ->
  scan_siblings fallback sibs = Returned t.
Proof.
  revert fallback. induction sibs as [|sib rest IH]; intros fallback Hfind;
    [discriminate |].
  simpl in *. destruct (is_wikitable sib); [|apply IH; exact Hfind].
  simpl in Hfind. destruct (is_player_table sib true).
  - congruence.
  - destruct (negb (is_Some_b fallback) && is_player_table sib false);
      apply IH; exact Hfind.
Qed.

Lemma find_none_all {A} (p : A -> bool) (l : list A) :
  List.find p l = None -> forall x, In x l -> p x = false.
Proof. intros H x Hin. exact (find_none p l H x Hin). Qed.

Lemma scan_headlines_strict (fallback : option node)
      (sites : list (node * list node)) (t : node) :
  List.find (fun t => is_player_table t true) (flat_map site_tables sites)
  = Some t ->
  scan_headlines fallback sites = Returned t.
Proof.
  revert fallback. induction sites as [|[span after] rest IH];
    intros fallback Hfind; [discriminate |].
  simpl in Hfind. rewrite find_app_first in Hfind.
  simpl scan_headlines. unfold site_tables at 1 in Hfind. simpl in Hfind.
  destruct (is_squad_heading span).
  - destruct (List.find (fun t => is_player_table t true)
                        (List.filter is_wikitable (following_tags after)))
      as [t'|] eqn:Hhere.
    + rewrite (scan_siblings_strict fallback _ t' Hhere). congruence.
    + rewrite scan_siblings_no_strict by (apply find_none_all; exact Hhere).
      apply IH. exact Hfind.
  - apply IH. exact Hfind.
Qed.

(** X1.  A strict table near a squad heading wins: when a wikitable that
    follows a squad heading passes the strict test, the first such table,
    in the order of the headings and of the tags after each, is returned,
    also when a loose table precedes it. *)
Theorem strict_near_heading_returned (soup t : node) :
  List.find (fun t => is_player_table t true) (heading_tables soup) = Some t ->
  find_first_team_table soup = Some t.
Proof.
  intros Hfind. unfold find_first_team_table.
  rewrite (scan_headlines_strict None _ t Hfind). reflexivity.
Qed.

(** X2.  The scan of the page: when no wikitable that follows a squad
    heading passes the loose test, the result is the first wikitable of
    the page that passes the strict test; without one, the first that
    passes the loose test; without one, the first wikitable of the page. *)
Theorem page_scan_tiers (soup : node) :
  (forall t, In t (heading_tables soup) -> is_player_table t false = false) ->
  let wikitables := page_wikitables soup in
  (forall t, List.find (fun t => is_player_table t true) wikitables = Some t ->
             find_first_team_table soup = Some t)
  /\ (forall t, List.find (fun t => is_player_table t true) wikitables = None ->
                List.find (fun t => is_player_table t false) wikitables = Some t ->
                find_first_team_table soup = Some t)
  /\ (List.find (fun t => is_player_table t false) wikitables = None ->
      find_first_team_table soup = head wikitables).
Proof.
  intros Hloose. cbv zeta. unfold find_first_team_table, page_wikitables.
  rewrite (scan_headlines_no_strict None)
    by (intros t Ht; apply is_player_table_not_loose, Hloose, Ht).
  fold (heading_tables soup).
  destruct (List.find (fun t => is_player_table t false) (heading_tables soup))
    as [t0|] eqn:Hnear.
  { apply find_some in Hnear as [Hin Ht0]. rewrite (Hloose t0 Hin) in Ht0.
    discriminate. }
  repeat split.
  - intros t ->. reflexivity.
  - intros t -> ->. reflexivity.
  - intros Hnone.
    destruct (List.find (fun t => is_player_table t true) _) as [t|] eqn:Hs.
    + apply find_some in Hs as [Hin Hs].
      pose proof (find_none _ _ Hnone t Hin) as Hl. simpl in Hl.
      apply is_player_table_not_loose in Hl. congruence.
    + rewrite Hnone. reflexivity.
Qed.

(** What follows the parent of a headline span lies in the document. *)
Lemma headline_sites_descend (n : node) :
  forall after site,
    In site (headline_sites after n) ->
    snd site = after \/ forall x, In x (snd site) -> In x (descendants n).
Proof.
  induction n as [s | name classes alt cs IHcs] using node_nested_ind;
    intros after site Hin; [destruct Hin |].
  induction cs as [|c rest IHrest]; [destruct Hin |].
  apply Forall_cons_1 in IHcs as [IHc IHtail].
  specialize (IHrest IHtail).
  change (headline_sites after (Elem name classes alt (c :: rest)))
    with ((if is_headline c then [(c, after)] else [])
            ++ headline_sites rest c
            ++ headline_sites after (Elem name classes alt rest)) in Hin.
  change (descendants (Elem name classes alt (c :: rest)))
    with ((c :: descendants c) ++ descendants (Elem name classes alt rest)).
  apply in_app_or in Hin as [Hin | Hin]; [|apply in_app_or in Hin as [Hin | Hin]].
  - destruct (is_headline c); [|destruct Hin].
    destruct Hin as [<- | []]. left. reflexivity.
  - right. intros x Hx. destruct (IHc rest site Hin) as [Heq | Hsub].
    + rewrite Heq in Hx. apply in_or_app. right.
      simpl. apply in_flat_map. exists x. split; [exact Hx | left; reflexivity].
    + apply in_or_app. left. right. apply Hsub, Hx.
  - destruct (IHrest Hin) as [Heq | Hsub]; [left; exact Heq |].
    right. intros x Hx. apply in_or_app. right. apply Hsub, Hx.
Qed.

Lemma heading_tables_in_page (soup t : node) :
  In t (heading_tables soup) -> In t (page_wikitables soup).
Proof.
  unfold heading_tables, page_wikitables, find_all. intros Hin.
  apply in_flat_map in Hin as (site & Hsite & Ht).
  unfold site_tables in Ht. destruct (is_squad_heading (fst site)); [|destruct Ht].
  apply filter_In in Ht as [Ht Hwiki].
  apply filter_In in Ht as [Ht Helem].
  apply filter_In. split.
  - destruct (headline_sites_descend soup [] site Hsite) as [Heq | Hsub].
    + rewrite Heq in Ht. destruct Ht.
    + apply Hsub, Ht.
  - unfold is_wikitable in Hwiki. unfold is_tag_class, is_tag.
    rewrite Helem. exact Hwiki.
Qed.

Lemma scan_siblings_result (fallback : option node) (sibs : list node) :
  match scan_siblings fallback sibs with
  | Returned t => In t (List.filter is_wikitable sibs)
  | Pending None => fallback = None
  | Pending (Some fb) =>
      fallback = Some fb \/ In fb (List.filter is_wikitable sibs)
  end.
Proof.
  revert fallback. induction sibs as [|sib rest IH]; intros fallback; simpl.
  - destruct fallback; auto.
  - destruct (is_wikitable sib) eqn:Hw; [|apply IH].
    destruct (is_player_table sib true); [left; reflexivity |].
    destruct (negb (is_Some_b fallback) && is_player_table sib false).
    + specialize (IH (Some sib)).
      destruct (scan_siblings (Some sib) rest) as [t | [fb|]].
      * right. exact IH.
      * destruct IH as [[= <-] | IH]; right; [left; reflexivity | right; exact IH].
      * discriminate.
    + specialize (IH fallback).
      destruct (scan_siblings fallback rest) as [t | [fb|]].
      * right. exact IH.
      * destruct IH as [IH | IH]; [left; exact IH | right; right; exact IH].
      * exact IH.
Qed.

Lemma scan_headlines_result (fallback : option node)
      (sites : list (node * list node)) :
  match scan_headlines fallback sites with
  | Returned t => In t (flat_map site_tables sites)
  | Pending None => fallback = None
  | Pending (Some fb) =>
      fallback = Some fb \/ In fb (flat_map site_tables sites)
  end.
Proof.
  revert fallback. induction sites as [|[span after] rest IH]; intros fallback.
  - simpl. destruct fallback; auto.
  - simpl scan_headlines. simpl flat_map.
    change (site_tables (span, after))
      with (if is_squad_heading span
            then List.filter is_wikitable (following_tags after) else []).
    destruct (is_squad_heading span); [|apply IH].
    pose proof (scan_siblings_result fallback (following_tags after)) as Hsib.
    destruct (scan_siblings fallback (following_tags after)) as [t | fb'].
    + apply in_or_app. left. exact Hsib.
    + specialize (IH fb').
      destruct (scan_headlines fb' rest) as [t | [fb|]].
      * apply in_or_app. right. exact IH.
      * destruct IH as [-> | IH]; [|right; apply in_or_app; right; exact IH].
        destruct Hsib as [Hsib | Hsib]; [left; exact Hsib |].
        right. apply in_or_app. left. exact Hsib.
      * subst fb'. exact Hsib.
Qed.

(** X3.  The table returned is a wikitable of the page, and no table is
    returned exactly when the page has no wikitable. *)
Theorem find_first_team_table_in_page (soup : node) :
  (forall t, find_first_team_table soup = Some t -> In t (page_wikitables soup))
  /\ (find_first_team_table soup = None <-> page_wikitables soup = []).
Proof.
  pose proof (scan_headlines_result None (headline_sites [] soup)) as Hscan.
  fold (heading_tables soup) in Hscan.
  unfold find_first_team_table. fold (page_wikitables soup).
  destruct (scan_headlines None (headline_sites [] soup)) as [t0 | [fb|]].
  - apply heading_tables_in_page in Hscan. split.
    + intros t [= <-]. exact Hscan.
    + split; [discriminate | intros Hnil; rewrite Hnil in Hscan; destruct Hscan].
  - destruct Hscan as [Hscan | Hscan]; [discriminate |].
    apply heading_tables_in_page in Hscan. split.
    + intros t [= <-]. exact Hscan.
    + split; [discriminate | intros Hnil; rewrite Hnil in Hscan; destruct Hscan].
  - destruct (List.find (fun t => is_player_table t true) (page_wikitables soup))
      as [t1|] eqn:Hs.
    { apply find_some in Hs as [Hin _]. split.
      - intros t [= <-]. exact Hin.
      - split; [discriminate | intros Hnil; rewrite Hnil in Hin; destruct Hin]. }
    destruct (List.find (fun t => is_player_table t false) (page_wikitables soup))
      as [t2|] eqn:Hl.
    { apply find_some in Hl as [Hin _]. split.
      - intros t [= <-]. exact Hin.
      - split; [discriminate | intros Hnil; rewrite Hnil in Hin; destruct Hin]. }
    destruct (page_wikitables soup) as [|w ws]; simpl.
    + split; [discriminate | split; reflexivity].
    + split; [intros t [= <-]; left; reflexivity | split; discriminate].
Qed.

End SelectorTiers.

Lemma strict_near_heading_returned_witness :
  List.find (fun t => is_player_table (U := ascii_unicode) t false)
            (heading_tables (U := ascii_unicode) Sample.page_strict_after_loose)
  = Some Sample.loose_table
  /\ find_first_team_table (U := ascii_unicode) Sample.page_strict_after_loose
     = Some Sample.strict_table.
Proof.
  split; [vm_compute; reflexivity |].
  apply (strict_near_heading_returned (U := ascii_unicode)
           Sample.page_strict_after_loose Sample.strict_table).
  vm_compute. reflexivity.
Defined.

Lemma page_scan_tiers_witness :
  head (page_wikitables Sample.page_without_heading) = Some Sample.results_table
  /\ find_first_team_table (U := ascii_unicode) Sample.page_without_heading
     = Some Sample.strict_table.
Proof.
  split; [vm_compute; reflexivity |].
  apply (proj1 (page_scan_tiers (U := ascii_unicode) Sample.page_without_heading
                  ltac:(intros t Ht; vm_compute in Ht; destruct Ht))).
  vm_compute. reflexivity.
Defined.

(** ** Columns *)

Lemma infer_columns_role (headers : list pystr) (r : role) (i : nat) :
  column_of (infer_columns headers) r = Some i ->
  exists h, headers !! i = Some h /\ header_role h = Some r.
Proof.
  induction headers as [|header headers IH] using rev_ind.
  - destruct r; discriminate.
  - rewrite infer_columns_snoc.
    destruct (column_of_assign (infer_columns headers) (length headers)
                               header r) as [Hhit Hmiss].
    destruct (decide (header_role header = Some r)) as [Hr | Hr].
    + rewrite (Hhit Hr). intros [= <-]. exists header. split; [|exact Hr].
      rewrite lookup_app_r by lia. rewrite Nat.sub_diag. reflexivity.
    + rewrite (Hmiss Hr). intros Hcol. destruct (IH Hcol) as (h & Hlook & Hrole).
      exists h. split; [|exact Hrole].
      rewrite lookup_app_l by (eapply lookup_lt_Some; eassumption). exact Hlook.
Qed.

Section Columns.
Context `{U : Unicode}.

Lemma column_of_shift (cols : columns) (r : role) :
  col_number cols = None ->
  column_of (shift_columns cols) r =
  match r with
  | RShirtNumber => Some 0
  | _ => option_map S (column_of cols r)
  end.
Proof.
  intros Hnum. unfold shift_columns, shift_column.
  destruct r; simpl; try reflexivity;
    match goal with |- context [match ?c with _ => _ end] => destruct c end;
    simpl; try rewrite Nat.add_1_r; reflexivity.
Qed.

Lemma implicit_number_result (table : node) (headers : list pystr) (cols : columns) :
  implicit_number table headers cols = cols
  \/ (col_number cols = None
      /\ implicit_number table headers cols = shift_columns cols).
Proof.
  unfold implicit_number.
  destruct (col_number cols) eqn:Hnum; simpl; [left; reflexivity |].
  destruct (nonempty headers); simpl; [|left; reflexivity].
  destruct (first_cells table) as [|first_cell others]; [left; reflexivity |].
  destruct (numeric_or_empty _); [right; split; reflexivity | left; reflexivity].
Qed.

(** X4.  The columns of a table: no column is given to two roles, the
    header loop assigns only indices of header cells, and after the check
    for an unlabelled number column an index is at most the number of
    header cells. *)
Theorem table_columns_distinct (table header_row : node) :
  let headers := header_texts header_row in
  let cols := table_columns table header_row in
  (forall r1 r2 i,
      column_of cols r1 = Some i -> column_of cols r2 = Some i -> r1 = r2)
  /\ (forall r i, column_of (infer_columns headers) r = Some i ->
                  i < length headers)
  /\ (forall r i, column_of cols r = Some i -> i <= length headers).
Proof.
  cbv zeta. unfold table_columns.
  set (headers := header_texts header_row).
  assert (Hdistinct : forall r1 r2 i,
             column_of (infer_columns headers) r1 = Some i ->
             column_of (infer_columns headers) r2 = Some i -> r1 = r2).
  { intros r1 r2 i H1 H2.
    apply infer_columns_role in H1 as (h1 & Hl1 & Hr1).
    apply infer_columns_role in H2 as (h2 & Hl2 & Hr2).
    congruence. }
  assert (Hbound : forall r i, column_of (infer_columns headers) r = Some i ->
                               i < length headers).
  { intros r i H. apply infer_columns_role in H as (h & Hl & _).
    eapply lookup_lt_Some. exact Hl. }
  destruct (implicit_number_result table headers (infer_columns headers))
    as [-> | [Hnum ->]].
  - repeat split; [exact Hdistinct | exact Hbound |].
    intros r i H. apply Hbound in H. lia.
  - repeat split; [| exact Hbound |].
    + intros r1 r2 i H1 H2.
      rewrite (column_of_shift _ r1 Hnum) in H1.
      rewrite (column_of_shift _ r2 Hnum) in H2.
      destruct r1, r2; try reflexivity;
        repeat match goal with
               | H : option_map S ?c = Some _ |- _ =>
                   destruct c eqn:?; simpl in H; [|discriminate]
               end;
        try congruence;
        match goal with
        | Ha : column_of _ ?ra = Some ?a, Hb : column_of _ ?rb = Some ?b |- _ =>
            assert (a = b) by congruence; subst;
            pose proof (Hdistinct ra rb _ Ha Hb); congruence
        end.
    + intros r i H. rewrite (column_of_shift _ _ Hnum) in H.
      destruct r; try (injection H as <-; lia);
        destruct (column_of (infer_columns headers) _) eqn:Hc; simpl in H;
        try discriminate; injection H as <-; apply Hbound in Hc; lia.
Qed.

End Columns.

(** ** Parser and club driver *)

Section Rosters.
Context `{U : Unicode}.
Variable fetch_soup : pystr -> option node.

Lemma length_omap_le {A B} (f : A -> option B) (l : list A) :
  length (omap f l) <= length l.
Proof.
  induction l as [|x l IH]; [reflexivity |].
  change (omap f (x :: l))
    with (match f x with Some y => y :: omap f l | None => omap f l end).
  destruct (f x); simpl; lia.
Qed.

Lemma parse_row_tags (cols : columns) (team league : pystr) (tr : node)
      (row : player_row) :
  parse_row cols team league tr = Some row ->
  Team row = team /\ League row = league.
Proof.
  unfold parse_row.
  destruct (negb (nonempty (row_cells tr)) || (length (row_cells tr) <? 2));
    [discriminate |].
  destruct (negb (nonempty (resolve_name _))); [discriminate |].
  intros [= <-]. split; reflexivity.
Qed.

(** X5.  The table parser emits at most one record for each row after the
    header row, and every record carries the team and the league it was
    given. *)
Theorem parse_first_team_table_bound (table : node) (team league : pystr) :
  length (parse_first_team_table (Some table) team league)
  <= length (table_rows table) - 1
  /\ (forall row, In row (parse_first_team_table (Some table) team league) ->
                  Team row = team /\ League row = league).
Proof.
  split.
  - unfold parse_first_team_table.
    destruct (find (is_tag (u "tr")) table); [|simpl; lia].
    etransitivity; [apply length_omap_le |]. rewrite length_drop. lia.
  - intros row Hin.
    apply parse_first_team_table_rows in Hin as (cols & tr & Hrow).
    exact (parse_row_tags _ _ _ _ _ Hrow).
Qed.

Lemma try_urls_full (team league : pystr) (before : list pystr) :
  forall partial_rows url after,
    (forall url', In url' before ->
       length (roster_of_url fetch_soup team league url') < MIN_PLAYER_THRESHOLD) ->
    MIN_PLAYER_THRESHOLD <= length (roster_of_url fetch_soup team league url) ->
    try_urls fetch_soup team league partial_rows (before ++ url :: after)
    = roster_of_url fetch_soup team league url.
Proof.
  induction before as [|b before IH]; intros partial_rows url after Hbefore Hfull.
  - simpl app. rewrite try_urls_step. cbv zeta.
    destruct (roster_of_url fetch_soup team league url) as [|r rs] eqn:Hr.
    + unfold MIN_PLAYER_THRESHOLD in Hfull. simpl in Hfull. lia.
    + simpl nonempty. cbv iota. apply Nat.leb_le in Hfull. rewrite Hfull.
      reflexivity.
  - simpl app. rewrite try_urls_step. cbv zeta.
    pose proof (Hbefore b (or_introl eq_refl)) as Hb. apply Nat.leb_gt in Hb.
    rewrite Hb.
    destruct (nonempty (roster_of_url fetch_soup team league b));
      apply IH; try exact Hfull; intros url' Hin; apply Hbefore; right; exact Hin.
Qed.

(** X6.  The first URL whose roster reaches the threshold of ten players
    decides: its roster is the squad, whatever the URLs before it yielded
    below the threshold and whatever follows it. *)
Theorem first_full_roster_returned (club : club_cfg)
        (before : list pystr) (url : pystr) (after : list pystr) :
  urls club = before ++ url :: after ->
  (forall url', In url' before ->
     length (roster_of_url fetch_soup (team club) (league club) url')
     < MIN_PLAYER_THRESHOLD) ->
  MIN_PLAYER_THRESHOLD
  <= length (roster_of_url fetch_soup (team club) (league club) url) ->
  fetch_club_squad fetch_soup club
  = roster_of_url fetch_soup (team club) (league club) url.
Proof.
  intros Hurls Hbefore Hfull. unfold fetch_club_squad. rewrite Hurls.
  apply try_urls_full; assumption.
Qed.

Lemma try_urls_origin (team league : pystr) (urls : list pystr) :
  forall partial_rows,
    (try_urls fetch_soup team league partial_rows urls
       = (if nonempty partial_rows then partial_rows else [])
     /\ forall url, In url urls -> roster_of_url fetch_soup team league url = [])
    \/ (exists url,
           In url urls
           /\ try_urls fetch_soup team league partial_rows urls
              = roster_of_url fetch_soup team league url
           /\ roster_of_url fetch_soup team league url <> []).
Proof.
  induction urls as [|url rest IH]; intros partial_rows.
  - left. split; [reflexivity | intros url []].
  - rewrite try_urls_step. cbv zeta.
    destruct (nonempty (roster_of_url fetch_soup team league url)) eqn:Hne.
    + right. apply nonempty_true in Hne as Hnz.
      destruct (MIN_PLAYER_THRESHOLD <=? _).
      * exists url. split; [left; reflexivity | split; [reflexivity | exact Hnz]].
      * destruct (IH (roster_of_url fetch_soup team league url))
          as [[Hres _] | (url' & Hin & Hres & Hnz')].
        -- rewrite Hne in Hres. exists url.
           split; [left; reflexivity | split; [exact Hres | exact Hnz]].
        -- exists url'. split; [right; exact Hin | split; assumption].
    + apply nonempty_false in Hne.
      destruct (IH partial_rows) as [[Hres Hempty] | (url' & Hin & Hres & Hnz')].
      * left. split; [exact Hres |]. intros url' [<- | Hin]; auto.
      * right. exists url'. split; [right; exact Hin | split; assumption].
Qed.

(** X7.  A club contributes no rows exactly when none of its URLs yields
    a row; otherwise its squad is the roster of one of its URLs. *)
Theorem fetch_club_squad_origin (club : club_cfg) :
  (fetch_club_squad fetch_soup club = [] <->
   forall url, In url (urls club) ->
     roster_of_url fetch_soup (team club) (league club) url = [])
  /\ (fetch_club_squad fetch_soup club <> [] ->
      exists url,
        In url (urls club)
        /\ fetch_club_squad fetch_soup club
           = roster_of_url fetch_soup (team club) (league club) url).
Proof.
  unfold fetch_club_squad.
  destruct (try_urls_origin (team club) (league club) (urls club) [])
    as [[Hres Hempty] | (url & Hin & Hres & Hnz)]; simpl in *.
  - split; [split; [intros _; exact Hempty | intros _; exact Hres] |].
    intros Hne. congruence.
  - split.
    + split.
      * intros Hnil. rewrite Hnil in Hres. congruence.
      * intros Hempty. rewrite (Hempty url Hin) in Hnz. congruence.
    + intros _. exists url. split; assumption.
Qed.

End Rosters.

Lemma first_full_roster_returned_witness :
  length (fetch_club_squad (U := ascii_unicode) Sample.web_full_second
                           Sample.barcelona) = 10
  /\ fetch_club_squad (U := ascii_unicode) Sample.web_full_second Sample.barcelona
     = roster_of_url (U := ascii_unicode) Sample.web_full_second
         (team Sample.barcelona) (league Sample.barcelona)
         (u "https://en.wikipedia.org/wiki/2024%E2%80%9325_FC_Barcelona_season").
Proof.
  split; [vm_compute; reflexivity |].
  apply (first_full_roster_returned (U := ascii_unicode) Sample.web_full_second
           Sample.barcelona
           [u "https://en.wikipedia.org/wiki/2025%E2%80%9326_FC_Barcelona_season"]
           (u "https://en.wikipedia.org/wiki/2024%E2%80%9325_FC_Barcelona_season")
           []).
  - reflexivity.
  - intros url' [<- | []]. vm_compute. lia.
  - vm_compute. lia.
Defined.

(** ** Numbers and countries *)

Section Cleaning.
Context `{U : Unicode}.

Lemma findall_digits_run (run : pystr) :
  run <> [] -> forallb isdecimal run = true -> findall_digits run = [run].
Proof.
  intros Hnz Hrun. unfold findall_digits.
  rewrite <- (app_nil_r run) at 1.
  rewrite (findall_digits_from_run run [] [] Hrun I).
  rewrite flush_app by exact Hnz. reflexivity.
Qed.

Lemma findall_digits_from_words (a : pystr) :
  forall cur, forallb isdecimal cur = true ->
    forall w, In w (findall_digits_from cur a) ->
              w <> [] /\ forallb isdecimal w = true.
Proof.
  assert (Hflush : forall cur, forallb isdecimal cur = true ->
            forall w, In w (flush cur) -> w <> [] /\ forallb isdecimal w = true).
  { intros [|c cur] Hcur w Hin; [destruct Hin |].
    destruct Hin as [<- | []]. split.
    - intros Hrev. apply (f_equal (@rev N)) in Hrev.
      rewrite rev_involutive in Hrev. discriminate.
    - apply forallb_forall. intros x Hx. apply in_rev in Hx.
      exact (proj1 (forallb_forall _ _) Hcur x Hx). }
  induction a as [|c a IH]; intros cur Hcur w Hin; simpl in Hin.
  - exact (Hflush cur Hcur w Hin).
  - destruct (isdecimal c) eqn:Hc.
    + apply (IH (c :: cur)); [simpl; rewrite Hc; exact Hcur | exact Hin].
    + apply in_app_or in Hin as [Hin | Hin].
      * exact (Hflush cur Hcur w Hin).
      * exact (IH [] eq_refl w Hin).
Qed.

(** X8.  Cleaning a shirt number twice is cleaning it once. *)
Theorem clean_number_idempotent (shirt_number : pystr) :
  clean_number (clean_number shirt_number) = clean_number shirt_number.
Proof.
  assert (Hcases : clean_number shirt_number = shirt_number
                   \/ clean_number shirt_number = []
                   \/ (clean_number shirt_number <> []
                       /\ forallb isdecimal (clean_number shirt_number) = true)).
  { unfold clean_number.
    destruct (nonempty shirt_number
              && negb (str_isdigit
                         (remove_char 47%N (remove_char 45%N shirt_number))));
      [|left; reflexivity].
    destruct (findall_digits shirt_number) as [|first rest] eqn:Hall;
      [right; left; reflexivity |].
    right. right.
    apply (findall_digits_from_words shirt_number [] eq_refl first).
    change (In first (findall_digits shirt_number)).
    rewrite Hall. left. reflexivity. }
  destruct Hcases as [Hsame | [Hnil | [Hnz Hrun]]].
  - rewrite Hsame. exact Hsame.
  - rewrite Hnil. reflexivity.
  - generalize dependent (clean_number shirt_number). intros run Hnz Hrun.
    unfold clean_number. rewrite (findall_digits_run run Hnz Hrun).
    destruct (nonempty run && _); reflexivity.
Qed.

Lemma dict_get_In {V} (d : list (pystr * V)) (k : pystr) (v : V) :
  dict_get d k = Some v -> In (k, v) d.
Proof.
  induction d as [|[k' v'] d IH]; simpl; [discriminate |].
  destruct (dict_get d k) as [w|].
  - intros [= <-]. right. apply IH. reflexivity.
  - destruct (str_eqb k k') eqn:Heq; [|discriminate].
    intros [= <-]. apply str_eqb_eq in Heq. subst. left. reflexivity.
Qed.

(** X9.  The two country tables agree: a country text that the player
    lookup maps to a code is mapped to the same code by the table parser. *)
Theorem country_tables_agree (country code : pystr) :
  dict_get infobox_country_map country = Some code ->
  normalize_country country = code.
Proof.
  intros Hget. apply dict_get_In in Hget.
  assert (Hall : forallb (fun entry =>
                            nonempty (fst entry)
                            && match dict_get country_map (fst entry) with
                               | Some c => str_eqb c (snd entry)
                               | None => false
                               end) infobox_country_map = true)
    by (vm_compute; reflexivity).
  pose proof (proj1 (forallb_forall _ _) Hall _ Hget) as Hentry.
  cbn [fst snd] in Hentry. apply andb_true_iff in Hentry as [Hne Hmap].
  unfold normalize_country. rewrite Hne.
  destruct (dict_get country_map country) as [c|]; [|discriminate Hmap].
  apply str_eqb_eq. exact Hmap.
Qed.

End Cleaning.

Lemma country_tables_agree_witness :
  normalize_country (U := ascii_unicode) (u "Northern Irish") = u "NIR".
Proof.
  apply (country_tables_agree (U := ascii_unicode)).
  vm_compute. reflexivity.
Defined.

(** ** The enrichment pass *)

Section Pass.
Context `{U : Unicode}.
Variable fetch_soup : pystr -> option node.

Lemma is_valid_player_row_kept (row row' : player_row) :
  extracted_kept row row' ->
  is_valid_player_row row' = is_valid_player_row row.
Proof.
  intros (Hname & _ & Hpos & _). unfold is_valid_player_row.
  rewrite Hname, Hpos. reflexivity.
Qed.

Lemma valid_at_insert (heap : gmap nat player_row) (r : nat) (row : player_row) :
  heap !! r = Some row ->
  forall l, valid_at (<[r := fill_row fetch_soup row]> heap) l = valid_at heap l.
Proof.
  intros Hr l. unfold valid_at. destruct (decide (l = r)) as [-> | Hne].
  - rewrite lookup_insert_eq, Hr.
    apply is_valid_player_row_kept, fill_row_kept.
  - rewrite lookup_insert_ne by congruence. reflexivity.
Qed.

Lemma fill_loop_valid_rows (rows : list nat) :
  forall (heap : gmap nat player_row) (valid_rows : list nat),
    (fill_loop fetch_soup heap valid_rows rows).2
    = valid_rows ++ List.filter (valid_at heap) rows.
Proof.
  induction rows as [|r rest IH]; intros heap valid_rows; simpl.
  - rewrite app_nil_r. reflexivity.
  - unfold valid_at at 1. destruct (heap !! r) as [row|] eqn:Hr; [|apply IH].
    destruct (is_valid_player_row row) eqn:Hvalid; simpl; [|apply IH].
    rewrite IH, <- app_assoc. simpl. do 2 f_equal.
    apply List.filter_ext. apply valid_at_insert. exact Hr.
Qed.

(** X10.  The pass returns the rows the validator accepts, in the order
    given and as often as given; what it writes into a row never changes
    whether the row is accepted. *)
Theorem fill_missing_data_filters (heap : gmap nat player_row) (rows : list nat) :
  (fill_missing_data fetch_soup heap rows).2 = List.filter (valid_at heap) rows
  /\ forall l,
       valid_at (fill_missing_data fetch_soup heap rows).1 l = valid_at heap l.
Proof.
  split; [apply (fill_loop_valid_rows rows heap []) |].
  intros l. unfold valid_at, fill_missing_data.
  destruct (heap !! l) as [row|] eqn:Hl.
  - destruct (fill_loop_kept fetch_soup rows heap [] l row Hl)
      as (row' & -> & Hkept).
    apply is_valid_player_row_kept. exact Hkept.
  - assert (Hnone : forall rows heap valid_rows,
               heap !! l = None ->
               (fill_loop fetch_soup heap valid_rows rows).1 !! l = None).
    { clear. intros rows. induction rows as [|r rest IH];
        intros heap valid_rows Hl; simpl; [exact Hl |].
      destruct (heap !! r) as [row|] eqn:Hr; [|apply IH; exact Hl].
      destruct (negb (is_valid_player_row row)); [apply IH; exact Hl |].
      apply IH. rewrite lookup_insert_ne by congruence. exact Hl. }
    rewrite (Hnone rows heap [] Hl). reflexivity.
Qed.

Lemma fill_loop_untouched (rows : list nat) :
  forall (heap : gmap nat player_row) (valid_rows : list nat) l,
    ~ In l rows \/ valid_at heap l = false ->
    (fill_loop fetch_soup heap valid_rows rows).1 !! l = heap !! l.
Proof.
  induction rows as [|r rest IH]; intros heap valid_rows l Hl; simpl;
    [reflexivity |].
  assert (Hrest : ~ In l rest \/ valid_at heap l = false)
    by (destruct Hl as [Hl | Hl]; [left; intros Hin; apply Hl; right; exact Hin
                                  | right; exact Hl]).
  destruct (heap !! r) as [row|] eqn:Hr; [|apply IH; exact Hrest].
  destruct (is_valid_player_row row) eqn:Hvalid; simpl; [|apply IH; exact Hrest].
  assert (Hne : l <> r).
  { intros ->. destruct Hl as [Hl | Hl]; [apply Hl; left; reflexivity |].
    unfold valid_at in Hl. rewrite Hr in Hl. congruence. }
  rewrite IH.
  - rewrite lookup_insert_ne by congruence. reflexivity.
  - destruct Hrest as [Hrest | Hrest]; [left; exact Hrest | right].
    rewrite (valid_at_insert heap r row Hr). exact Hrest.
Qed.

(** X11.  The pass leaves alone every row that is not in its list and
    every row the validator rejects. *)
Theorem fill_missing_data_frame (heap : gmap nat player_row) (rows : list nat)
        (l : nat) :
  ~ In l rows \/ valid_at heap l = false ->
  (fill_missing_data fetch_soup heap rows).1 !! l = heap !! l.
Proof. apply fill_loop_untouched. Qed.

Lemma kept_or_found_trans (a b c found : pystr) :
  kept_or_found a b found -> kept_or_found b c found -> kept_or_found a c found.
Proof.
  unfold kept_or_found.
  intros [-> | (Ha & -> & Hnz)] [-> | (Hb & -> & Hnz')]; auto.
Qed.

Lemma filled_from_refl (row : player_row) : filled_from fetch_soup row row.
Proof. unfold filled_from, kept_or_found. auto. Qed.

Lemma filled_from_trans (r1 r2 r3 : player_row) :
  filled_from fetch_soup r1 r2 -> filled_from fetch_soup r2 r3 ->
  filled_from fetch_soup r1 r3.
Proof.
  unfold filled_from. intros (Hn & Ht & Hc & Hs) (Hn' & Ht' & Hc' & Hs').
  rewrite Hn, Ht in Hc', Hs'.
  repeat split; try congruence; eapply kept_or_found_trans; eassumption.
Qed.

Lemma fill_row_filled (row : player_row) :
  filled_from fetch_soup row (fill_row fetch_soup row).
Proof.
  unfold filled_from, fill_row, kept_or_found.
  destruct (search_player_info fetch_soup (Name row) (Team row))
    as [found_country found_number].
  destruct (nonempty (strip (Country row))) eqn:Hc,
           (nonempty (strip (Shirt_Number row))) eqn:Hs; simpl;
    destruct (nonempty found_country) eqn:Hfc,
             (nonempty found_number) eqn:Hfn; simpl;
    repeat split; auto;
    right; repeat split; auto;
    try (apply nonempty_false; assumption);
    apply nonempty_true; assumption.
Qed.

Lemma fill_loop_filled (rows : list nat) :
  forall (heap : gmap nat player_row) (valid_rows : list nat) l row,
    heap !! l = Some row ->
    exists row',
      (fill_loop fetch_soup heap valid_rows rows).1 !! l = Some row'
      /\ filled_from fetch_soup row row'.
Proof.
  induction rows as [|r rest IH]; intros heap valid_rows l row Hl; simpl.
  - exists row. split; [exact Hl | apply filled_from_refl].
  - destruct (heap !! r) as [rw|] eqn:Hr; [|apply IH; exact Hl].
    destruct (negb (is_valid_player_row rw)); [apply IH; exact Hl |].
    destruct (decide (l = r)) as [-> | Hne].
    + rewrite Hr in Hl. injection Hl as ->.
      destruct (IH (<[r := fill_row fetch_soup row]> heap) (valid_rows ++ [r])
                   r (fill_row fetch_soup row)) as (row' & Hrow' & Hfilled).
      { apply lookup_insert_eq. }
      exists row'. split; [exact Hrow' |].
      eapply filled_from_trans; [apply fill_row_filled | exact Hfilled].
    + apply IH. rewrite lookup_insert_ne by congruence. exact Hl.
Qed.

(** X12.  What the pass writes: the Country of a row after the pass is
    the Country it had, or, where that was blank, the country that
    [search_player_info] gives for the Name and Team of the row, which is
    not empty; likewise the Shirt Number. *)
Theorem fill_missing_data_sources
        (heap : gmap nat player_row) (rows : list nat) (l : nat) (row : player_row) :
  heap !! l = Some row ->
  exists row',
    (fill_missing_data fetch_soup heap rows).1 !! l = Some row'
    /\ (Country row' = Country row
        \/ (strip (Country row) = []
            /\ Country row'
               = (search_player_info fetch_soup (Name row) (Team row)).1
            /\ (search_player_info fetch_soup (Name row) (Team row)).1 <> []))
    /\ (Shirt_Number row' = Shirt_Number row
        \/ (strip (Shirt_Number row) = []
            /\ Shirt_Number row'
               = (search_player_info fetch_soup (Name row) (Team row)).2
            /\ (search_player_info fetch_soup (Name row) (Team row)).2 <> [])).
Proof.
  intros Hl.
  destruct (fill_loop_filled rows heap [] l row Hl) as (row' & Hrow' & Hfilled).
  exists row'. split; [exact Hrow' |].
  destruct Hfilled as (_ & _ & Hc & Hs). split; assumption.
Qed.

Lemma fill_loop_once (rows : list nat) :
  forall (heap : gmap nat player_row) (valid_rows : list nat) l row,
    List.NoDup rows -> In l rows ->
    heap !! l = Some row -> is_valid_player_row row = true ->
    (fill_loop fetch_soup heap valid_rows rows).1 !! l
    = Some (fill_row fetch_soup row).
Proof.
  induction rows as [|r rest IH]; intros heap valid_rows l row Hnodup Hin Hl Hvalid;
    [destruct Hin |].
  apply List.NoDup_cons_iff in Hnodup as [Hfresh Hnodup].
  simpl. destruct Hin as [-> | Hin].
  - rewrite Hl, Hvalid. simpl.
    rewrite fill_loop_untouched by (left; exact Hfresh).
    apply lookup_insert_eq.
  - assert (Hne : l <> r) by (intros ->; contradiction).
    destruct (heap !! r) as [rw|] eqn:Hr; [|apply IH; assumption].
    destruct (negb (is_valid_player_row rw)); [apply IH; assumption |].
    apply IH; try assumption.
    rewrite lookup_insert_ne by congruence. exact Hl.
Qed.

Lemma omap_cons {A B} (f : A -> option B) (x : A) (l : list A) :
  omap f (x :: l)
  = match f x with Some y => y :: omap f l | None => omap f l end.
Proof. reflexivity. Qed.

Lemma omap_filter_seq {A B} (valid : A -> bool) (F : A -> B) (all : list A) :
  forall (k : nat) (g : nat -> option B) (P : nat -> bool),
    (forall i r, all !! i = Some r -> P (k + i) = valid r) ->
    (forall i r, all !! i = Some r -> valid r = true -> g (k + i) = Some (F r)) ->
    omap g (List.filter P (seq k (length all))) = map F (List.filter valid all).
Proof.
  induction all as [|r rest IH]; intros k g P HP Hg; [reflexivity |].
  simpl length. simpl seq. simpl List.filter.
  pose proof (HP 0 r eq_refl) as HP0. rewrite Nat.add_0_r in HP0. rewrite HP0.
  assert (Htail : omap g (List.filter P (seq (S k) (length rest)))
                  = map F (List.filter valid rest)).
  { apply IH.
    - intros i r' Hi. replace (S k + i) with (k + S i) by lia.
      apply (HP (S i)). exact Hi.
    - intros i r' Hi Hv. replace (S k + i) with (k + S i) by lia.
      apply (Hg (S i)); assumption. }
  destruct (valid r) eqn:Hv; [|exact Htail].
  rewrite omap_cons. pose proof (Hg 0 r eq_refl Hv) as Hg0.
  rewrite Nat.add_0_r in Hg0. rewrite Hg0, Htail. reflexivity.
Qed.

(** The rows of the output, without the heap: what the clubs yield,
    filtered by the validator, each row filled once. *)
Lemma main_rows_eq :
  main_rows fetch_soup
  = map (fill_row fetch_soup)
        (List.filter is_valid_player_row
                     (flat_map (fetch_club_squad fetch_soup) CLUBS)).
Proof.
  unfold main_rows.
  set (all_rows := flat_map (fetch_club_squad fetch_soup) CLUBS).
  destruct (fill_missing_data fetch_soup (map_seq 0 all_rows)
                              (seq 0 (length all_rows)))
    as [heap valid_rows] eqn:Hfill.
  assert (Hvalid : valid_rows
                   = List.filter (valid_at (map_seq 0 all_rows))
                                 (seq 0 (length all_rows))).
  { change valid_rows with (heap, valid_rows).2. rewrite <- Hfill.
    apply (fill_loop_valid_rows _ _ []). }
  rewrite Hvalid. apply omap_filter_seq.
  - intros i r Hi. unfold valid_at. simpl.
    rewrite lookup_map_seq_0, Hi. reflexivity.
  - intros i r Hi Hv. simpl. change heap with (heap, valid_rows).1.
    rewrite <- Hfill. apply fill_loop_once.
    + apply List.seq_NoDup.
    + apply in_seq. apply lookup_lt_Some in Hi. lia.
    + rewrite lookup_map_seq_0. exact Hi.
    + exact Hv.
Qed.

(** X13.  The output without the heap: the rows written are the rows the
    clubs yield, in order, without those the validator rejects, each
    filled once by the body of the pass. *)
Theorem main_rows_pipeline :
  main_rows fetch_soup
  = map (fill_row fetch_soup)
        (List.filter is_valid_player_row
                     (flat_map (fetch_club_squad fetch_soup) CLUBS))
  /\ length (main_rows fetch_soup)
     <= length (flat_map (fetch_club_squad fetch_soup) CLUBS).
Proof.
  split; [exact main_rows_eq |].
  rewrite main_rows_eq, length_map. apply List.filter_length_le.
Qed.

Lemma is_valid_player_row_position (row : player_row) :
  is_valid_player_row row = true ->
  ~ In (lower (strip (Position row))) invalid_positions.
Proof.
  unfold is_valid_player_row.
  destruct (str_in (lower (strip (Name row))) invalid_names
            || (length (strip (Name row)) <? 2)); [discriminate |].
  destruct (str_in (lower (strip (Position row))) invalid_positions) eqn:Hpos;
    [discriminate |].
  intros _ Hin. apply str_in_In in Hin. congruence.
Qed.

Lemma fetch_club_squad_tags (club : club_cfg) (row : player_row) :
  In row (fetch_club_squad fetch_soup club) ->
  Team row = team club /\ League row = league club.
Proof.
  unfold fetch_club_squad. intros Hin.
  apply try_urls_rows in Hin as [[] | [url Hin]].
  unfold roster_of_url in Hin.
  destruct (fetch_soup url) as [soup|]; [|destruct Hin].
  destruct (find_first_team_table soup) as [table|]; [|destruct Hin].
  apply parse_first_team_table_rows in Hin as (cols & tr & Hrow).
  exact (parse_row_tags _ _ _ _ _ Hrow).
Qed.

Lemma main_rows_origin (row' : player_row) :
  In row' (main_rows fetch_soup) ->
  exists club row,
    In club CLUBS /\ In row (fetch_club_squad fetch_soup club)
    /\ is_valid_player_row row = true /\ extracted_kept row row'.
Proof.
  rewrite main_rows_eq. intros Hin.
  apply in_map_iff in Hin as (row & <- & Hin).
  apply filter_In in Hin as [Hin Hvalid].
  apply in_flat_map in Hin as (club & Hclub & Hrow).
  exists club, row. repeat split; try assumption; apply fill_row_kept.
Qed.

(** X14.  No staff in the output: a row that survives the pass, and so
    every row written, has a Position whose trimmed lowercase form is not
    one of the staff positions. *)
Theorem output_without_staff :
  (forall (heap : gmap nat player_row) (rows : list nat) l row,
      In l (fill_missing_data fetch_soup heap rows).2 ->
      (fill_missing_data fetch_soup heap rows).1 !! l = Some row ->
      ~ In (lower (strip (Position row))) invalid_positions)
  /\ (forall row, In row (main_rows fetch_soup) ->
                  ~ In (lower (strip (Position row))) invalid_positions).
Proof.
  split.
  - intros heap rows l row' Hin Hrow'. unfold fill_missing_data in *.
    apply fill_loop_valid in Hin as [[] | (row & Hrow & Hvalid)].
    destruct (fill_loop_kept fetch_soup rows heap [] l row Hrow)
      as (row'' & Hrow'' & Hkept).
    rewrite Hrow' in Hrow''. injection Hrow'' as <-.
    destruct Hkept as (_ & _ & -> & _).
    apply is_valid_player_row_position, Hvalid.
  - intros row' Hin.
    apply main_rows_origin in Hin as (club & row & _ & _ & Hvalid & Hkept).
    destruct Hkept as (_ & _ & -> & _).
    apply is_valid_player_row_position, Hvalid.
Qed.

(** X15.  Every row written carries the team and the league of one of
    the configured clubs. *)
Theorem output_rows_of_clubs (row : player_row) :
  In row (main_rows fetch_soup) ->
  exists club, In club CLUBS /\ Team row = team club /\ League row = league club.
Proof.
  intros Hin.
  apply main_rows_origin in Hin as (club & row0 & Hclub & Hrow & _ & Hkept).
  apply fetch_club_squad_tags in Hrow as [Hteam Hleague].
  destruct Hkept as (_ & Ht & _ & Hl & _).
  exists club. repeat split; [exact Hclub | congruence | congruence].
Qed.

End Pass.

Lemma fill_missing_data_frame_witness :
  (fill_missing_data (U := ascii_unicode) Sample.offline
     {[ 0 := Sample.coach; 1 := Sample.pedri "" "" ]} [0; 1]).1 !! 0
  = ({[ 0 := Sample.coach; 1 := Sample.pedri "" "" ]} : gmap nat player_row) !! 0.
Proof.
  apply (fill_missing_data_frame (U := ascii_unicode) Sample.offline
           {[ 0 := Sample.coach; 1 := Sample.pedri "" "" ]} [0; 1] 0).
  right. vm_compute. reflexivity.
Defined.

Lemma fill_missing_data_sources_witness :
  exists row',
    (fill_missing_data (U := ascii_unicode) Sample.offline
       {[ 1 := Sample.pedri "" "" ]} [1]).1 !! 1 = Some row'
    /\ (Country row' = Country (Sample.pedri "" "")
        \/ (strip (U := ascii_unicode) (Country (Sample.pedri "" "")) = []
            /\ Country row'
               = (search_player_info (U := ascii_unicode) Sample.offline
                    (Name (Sample.pedri "" "")) (Team (Sample.pedri "" ""))).1
            /\ (search_player_info (U := ascii_unicode) Sample.offline
                    (Name (Sample.pedri "" "")) (Team (Sample.pedri "" ""))).1 <> []))
    /\ (Shirt_Number row' = Shirt_Number (Sample.pedri "" "")
        \/ (strip (U := ascii_unicode) (Shirt_Number (Sample.pedri "" "")) = []
            /\ Shirt_Number row'
               = (search_player_info (U := ascii_unicode) Sample.offline
                    (Name (Sample.pedri "" "")) (Team (Sample.pedri "" ""))).2
            /\ (search_player_info (U := ascii_unicode) Sample.offline
                    (Name (Sample.pedri "" "")) (Team (Sample.pedri "" ""))).2 <> [])).
Proof.
  apply (fill_missing_data_sources (U := ascii_unicode) Sample.offline
           {[ 1 := Sample.pedri "" "" ]} [1] 1 (Sample.pedri "" "")).
  reflexivity.
Defined.

Lemma output_rows_of_clubs_witness :
  exists club,
    In club CLUBS
    /\ Team (Sample.pedri "ESP" "1") = team club
    /\ League (Sample.pedri "ESP" "1") = league club.
Proof.
  apply (output_rows_of_clubs (U := ascii_unicode) Sample.web_full_second
                              (Sample.pedri "ESP" "1")).
  vm_compute. left. reflexivity.
Defined.

(** ** Complete squads and the last resort *)

Section Quality.
Context `{U : Unicode}.
Variable fetch_soup : pystr -> option node.

Lemma try_urls_complete (team league : pystr) (urls : list pystr) :
  forall partial_rows,
    length partial_rows < MIN_PLAYER_THRESHOLD ->
    (MIN_PLAYER_THRESHOLD
     <= length (try_urls fetch_soup team league partial_rows urls)
     <-> exists url,
           In url urls
           /\ MIN_PLAYER_THRESHOLD
              <= length (roster_of_url fetch_soup team league url)).
Proof.
  induction urls as [|url rest IH]; intros partial_rows Hpartial.
  - simpl. split.
    + intros Hfull. destruct (nonempty partial_rows); simpl in Hfull;
        unfold MIN_PLAYER_THRESHOLD in *; lia.
    + intros (url & [] & _).
  - rewrite try_urls_step. cbv zeta.
    destruct (Nat.leb_spec MIN_PLAYER_THRESHOLD
                           (length (roster_of_url fetch_soup team league url)))
      as [Hfull | Hbelow].
    + destruct (roster_of_url fetch_soup team league url) as [|r rs] eqn:Hr;
        [unfold MIN_PLAYER_THRESHOLD in Hfull; simpl in Hfull; lia |].
      simpl nonempty. cbv iota. split; [|intros _; exact Hfull].
      intros _. exists url. split; [left; reflexivity |]. rewrite Hr. exact Hfull.
    + assert (Hskip : (exists url', In url' (url :: rest)
                         /\ MIN_PLAYER_THRESHOLD
                            <= length (roster_of_url fetch_soup team league url'))
                      <-> (exists url', In url' rest
                             /\ MIN_PLAYER_THRESHOLD
                                <= length (roster_of_url fetch_soup team league url'))).
      { split.
        - intros (url' & [<- | Hin] & Hfull); [lia | eauto].
        - intros (url' & Hin & Hfull). exists url'. split; [right|]; assumption. }
      rewrite Hskip.
      destruct (nonempty (roster_of_url fetch_soup team league url));
        apply IH; assumption.
Qed.

(** X16.  The squad of a club has ten players or more exactly when one of
    its URLs yields a roster of ten players or more. *)
Theorem fetch_club_squad_complete (club : club_cfg) :
  MIN_PLAYER_THRESHOLD <= length (fetch_club_squad fetch_soup club)
  <-> exists url,
        In url (urls club)
        /\ MIN_PLAYER_THRESHOLD
           <= length (roster_of_url fetch_soup (team club) (league club) url).
Proof.
  unfold fetch_club_squad. apply try_urls_complete.
  unfold MIN_PLAYER_THRESHOLD. simpl. lia.
Qed.

Lemma scan_siblings_quality (fallback : option node) (sibs : list node) :
  match scan_siblings fallback sibs with
  | Returned t => is_player_table t true = true
  | Pending None => True
  | Pending (Some fb) => fallback = Some fb \/ is_player_table fb false = true
  end.
Proof.
  revert fallback. induction sibs as [|sib rest IH]; intros fallback; simpl.
  - destruct fallback; auto.
  - destruct (is_wikitable sib); [|apply IH].
    destruct (is_player_table sib true) eqn:Hstrict; [exact Hstrict |].
    destruct (negb (is_Some_b fallback) && is_player_table sib false) eqn:Hloose.
    + apply andb_true_iff in Hloose as [_ Hloose].
      specialize (IH (Some sib)).
      destruct (scan_siblings (Some sib) rest) as [t | [fb|]]; auto.
      destruct IH as [[= <-] | IH]; right; assumption.
    + apply IH.
Qed.

Lemma scan_headlines_quality (fallback : option node)
      (sites : list (node * list node)) :
  match scan_headlines fallback sites with
  | Returned t => is_player_table t true = true
  | Pending None => True
  | Pending (Some fb) => fallback = Some fb \/ is_player_table fb false = true
  end.
Proof.
  revert fallback. induction sites as [|[span after] rest IH]; intros fallback.
  - simpl. destruct fallback; auto.
  - simpl. destruct (is_squad_heading span); [|apply IH].
    pose proof (scan_siblings_quality fallback (following_tags after)) as Hsib.
    destruct (scan_siblings fallback (following_tags after)) as [t | fb'];
      [exact Hsib |].
    specialize (IH fb').
    destruct (scan_headlines fb' rest) as [t | [fb|]]; auto.
    destruct IH as [-> | IH]; [exact Hsib | right; exact IH].
Qed.

(** X17.  The last resort is taken only when nothing better exists: when
    a wikitable of the page passes the loose test, the table returned
    passes the loose test. *)
Theorem returned_table_is_roster (soup : node) :
  (exists w, In w (page_wikitables soup) /\ is_player_table w false = true) ->
  exists t, find_first_team_table soup = Some t
            /\ is_player_table t false = true.
Proof.
  intros (w & Hw & Hloose).
  assert (Hstrict : forall t, is_player_table t true = true ->
                              is_player_table t false = true).
  { intros t Ht. destruct (is_player_table t false) eqn:Hl; [reflexivity |].
    apply is_player_table_not_loose in Hl. congruence. }
  pose proof (scan_headlines_quality None (headline_sites [] soup)) as Hscan.
  unfold find_first_team_table. fold (page_wikitables soup).
  destruct (scan_headlines None (headline_sites [] soup)) as [t | [fb|]].
  - exists t. split; [reflexivity | apply Hstrict, Hscan].
  - exists fb. split; [reflexivity |]. destruct Hscan as [Hscan | Hscan];
      [discriminate | exact Hscan].
  - destruct (List.find (fun t => is_player_table t true) (page_wikitables soup))
      as [t|] eqn:Hs.
    { exists t. split; [reflexivity |]. apply find_some in Hs as [_ Hs].
      apply Hstrict, Hs. }
    destruct (List.find (fun t => is_player_table t false) (page_wikitables soup))
      as [t|] eqn:Hl.
    { exists t. split; [reflexivity |]. apply find_some in Hl as [_ Hl]. exact Hl. }
    pose proof (find_none _ _ Hl w Hw) as Hnone. simpl in Hnone. congruence.
Qed.

End Quality.

Lemma returned_table_is_roster_witness :
  exists t,
    find_first_team_table (U := ascii_unicode) Sample.page_without_heading = Some t
    /\ is_player_table (U := ascii_unicode) t false = true.
Proof.
  apply (returned_table_is_roster (U := ascii_unicode) Sample.page_without_heading).
  exists Sample.loose_table. split; [vm_compute; right; left | vm_compute];
    reflexivity.
Defined.

(** ** Extracted values *)

Lemma ascii_isspace_upper (c : char) :
  ascii_isspace (ascii_upper_char c) = ascii_isspace c.
Proof.
  unfold ascii_upper_char, ascii_isspace.
  destruct ((97 <=? c) && (c <=? 122))%N eqn:Hlower; [|reflexivity].
  apply andb_true_iff in Hlower as [Hlo Hhi].
  apply N.leb_le in Hlo, Hhi.
  repeat match goal with
         | |- context [(?a <=? ?b)%N] => destruct (N.leb_spec a b)
         end; simpl; try reflexivity; lia.
Qed.

Lemma ascii_lstrip_upper (s : pystr) :
  lstrip (U := ascii_unicode) (map ascii_upper_char s)
  = map ascii_upper_char (lstrip (U := ascii_unicode) s).
Proof.
  induction s as [|c s IH]; [reflexivity |].
  cbn [map lstrip isspace ascii_unicode].
  rewrite ascii_isspace_upper. destruct (ascii_isspace c); [exact IH | reflexivity].
Qed.

(** The ASCII runtime obeys the three laws. *)
Lemma ascii_runtime_laws : runtime_laws (U := ascii_unicode).
Proof.
  unfold runtime_laws. repeat split.
  - intros s Hs. cbn [upper ascii_unicode].
    assert (Hstrip : strip (U := ascii_unicode) (map ascii_upper_char s)
                     = map ascii_upper_char (strip (U := ascii_unicode) s)).
    { unfold strip, rstrip.
      rewrite ascii_lstrip_upper, <- map_rev, ascii_lstrip_upper, map_rev.
      reflexivity. }
    rewrite Hstrip. destruct (strip (U := ascii_unicode) s); [congruence | discriminate].
  - intros c. cbn [isdecimal isspace ascii_unicode].
    unfold ascii_isdigit, ascii_isspace. intros Hd.
    apply andb_true_iff in Hd as [Hlo Hhi]. apply N.leb_le in Hlo, Hhi.
    repeat match goal with
           | |- context [(?a <=? ?b)%N] => destruct (N.leb_spec a b)
           end; simpl; try reflexivity; lia.
  - intros c Hlo Hhi. cbn [isspace ascii_unicode]. unfold ascii_isspace.
    repeat match goal with
           | |- context [(?a <=? ?b)%N] => destruct (N.leb_spec a b)
           end; simpl; try reflexivity; lia.
Qed.

Section Extracted.
Context `{U : Unicode}.
Variable fetch_soup : pystr -> option node.

Lemma trimmed_nil : trimmed [].
Proof. split; exact I. Qed.

Lemma trimmed_not_blank (a : pystr) : trimmed a -> not_blank a.
Proof. intros Ht Hnz. rewrite (trimmed_strip a Ht). exact Hnz. Qed.

Lemma nonspace_trimmed (a : pystr) :
  (forall c, In c a -> isspace c = false) -> trimmed a.
Proof.
  intros Hall. split.
  - destruct a as [|c a]; [exact I |]. apply Hall. left. reflexivity.
  - destruct (rev a) as [|c w] eqn:Hrev; [exact I |].
    apply Hall, in_rev. rewrite Hrev. left. reflexivity.
Qed.

Lemma extract_country_from_cell_trimmed (cell : option node) :
  trimmed (extract_country_from_cell cell).
Proof.
  unfold extract_country_from_cell.
  destruct cell as [cell|]; [|apply trimmed_nil].
  destruct (find (is_tag_class (u "span") (u "flagicon")) cell) as [flag|];
    [|apply trimmed_nil].
  destruct (find (is_tag (u "img")) flag) as [img|].
  - destruct (get_alt img) as [[|c alt]|]; try apply strip_trimmed;
      destruct (find (is_tag (u "a")) flag);
      try apply get_text_strip_trimmed; apply trimmed_nil.
  - destruct (find (is_tag (u "a")) flag);
      [apply get_text_strip_trimmed | apply trimmed_nil].
Qed.

Lemma raw_country_trimmed (nat_cell player_cell : option node) :
  trimmed (raw_country nat_cell player_cell).
Proof.
  unfold raw_country. destruct nat_cell as [cell|].
  - destruct (last (find_all (is_tag (u "a")) cell));
      apply get_text_strip_trimmed.
  - apply extract_country_from_cell_trimmed.
Qed.

Lemma country_map_codes (country code : pystr) :
  dict_get country_map country = Some code ->
  forall c, In c code -> is_capital c = true.
Proof.
  intros Hget. apply dict_get_In in Hget.
  assert (Hall : forallb (fun entry => forallb is_capital (snd entry))
                         country_map = true)
    by (vm_compute; reflexivity).
  pose proof (proj1 (forallb_forall _ _) Hall _ Hget) as Hcode.
  cbn [snd] in Hcode. exact (proj1 (forallb_forall _ _) Hcode).
Qed.

Lemma normalize_country_not_blank (country : pystr) :
  runtime_laws -> trimmed country -> not_blank (normalize_country country).
Proof.
  intros (Hupper & _ & Hcapital) Htrim. unfold normalize_country.
  destruct (nonempty country) eqn:Hne; [|apply trimmed_not_blank, Htrim].
  apply nonempty_true in Hne.
  destruct (dict_get country_map country) as [code|] eqn:Hget.
  - apply trimmed_not_blank, nonspace_trimmed. intros c Hc.
    pose proof (country_map_codes country code Hget c Hc) as Hcap.
    unfold is_capital in Hcap. apply andb_true_iff in Hcap as [Hlo Hhi].
    apply N.leb_le in Hlo, Hhi. apply Hcapital; assumption.
  - destruct (length country <=? 3); [|apply trimmed_not_blank, Htrim].
    intros _. apply Hupper. rewrite (trimmed_strip country Htrim). exact Hne.
Qed.

Lemma clean_number_cases (shirt_number : pystr) :
  clean_number shirt_number = shirt_number
  \/ clean_number shirt_number = []
  \/ forallb isdecimal (clean_number shirt_number) = true.
Proof.
  unfold clean_number.
  destruct (nonempty shirt_number
            && negb (str_isdigit
                       (remove_char 47%N (remove_char 45%N shirt_number))));
    [|left; reflexivity].
  destruct (findall_digits shirt_number) as [|first rest] eqn:Hall;
    [right; left; reflexivity |].
  right. right.
  apply (findall_digits_from_words shirt_number [] eq_refl first).
  change (In first (findall_digits shirt_number)).
  rewrite Hall. left. reflexivity.
Qed.

Lemma clean_number_not_blank (shirt_number : pystr) :
  runtime_laws -> trimmed shirt_number -> not_blank (clean_number shirt_number).
Proof.
  intros (_ & Hdecimal & _) Htrim.
  destruct (clean_number_cases shirt_number) as [-> | [-> | Hrun]].
  - apply trimmed_not_blank, Htrim.
  - intros Hnz. congruence.
  - apply trimmed_not_blank, nonspace_trimmed. intros c Hc.
    apply Hdecimal. exact (proj1 (forallb_forall _ _) Hrun c Hc).
Qed.

(** The Country and the Shirt Number of a record of the parser are empty
    or not blank. *)
Lemma emitted_not_blank (row : player_row) :
  runtime_laws -> emitted_by_parser row ->
  not_blank (Country row) /\ not_blank (Shirt_Number row).
Proof.
  intros Hlaws (cols & team & league & tr & Hrow). unfold parse_row in Hrow.
  destruct (negb (nonempty (row_cells tr)) || (length (row_cells tr) <? 2));
    [discriminate |].
  destruct (negb (nonempty (resolve_name _))); [discriminate |].
  injection Hrow as <-. cbn [Country Shirt_Number]. split.
  - apply normalize_country_not_blank; [exact Hlaws | apply raw_country_trimmed].
  - unfold resolve_number.
    destruct (get_cell (row_cells tr) (col_number cols)) as [cell|].
    + apply clean_number_not_blank;
        [exact Hlaws | apply get_text_strip_trimmed].
    + intros Hnz. congruence.
Qed.

Lemma fetch_club_squad_emitted (club : club_cfg) (row : player_row) :
  In row (fetch_club_squad fetch_soup club) -> emitted_by_parser row.
Proof.
  unfold fetch_club_squad. intros Hin.
  apply try_urls_rows in Hin as [[] | [url Hin]].
  unfold roster_of_url in Hin.
  destruct (fetch_soup url) as [soup|]; [|destruct Hin].
  destruct (find_first_team_table soup) as [table|]; [|destruct Hin].
  apply parse_first_team_table_rows in Hin as (cols & tr & Hrow).
  exists cols, (team club), (league club), tr. exact Hrow.
Qed.

(** C9.  Enrichment never overwrites extracted values: in every row that
    the table parser made, and so in every row that [main] hands to
    [fill_missing_data], the pass leaves a Country that is not empty as
    it is, and a Shirt Number that is not empty, and the Name, Team,
    Position and League in every case.  The runtime is any that obeys the
    three laws of [runtime_laws]. *)
Theorem enrichment_never_overwrites :
  runtime_laws ->
  (forall (heap : gmap nat player_row) (rows : list nat) l row,
      heap !! l = Some row -> emitted_by_parser row ->
      exists row',
        (fill_missing_data fetch_soup heap rows).1 !! l = Some row'
        /\ Name row' = Name row /\ Team row' = Team row
        /\ Position row' = Position row /\ League row' = League row
        /\ (Country row <> [] -> Country row' = Country row)
        /\ (Shirt_Number row <> [] -> Shirt_Number row' = Shirt_Number row))
  /\ (forall i row,
         flat_map (fetch_club_squad fetch_soup) CLUBS !! i = Some row ->
         exists row',
           (fill_missing_data fetch_soup
              (map_seq 0 (flat_map (fetch_club_squad fetch_soup) CLUBS))
              (seq 0 (length (flat_map (fetch_club_squad fetch_soup) CLUBS)))).1
           !! i = Some row'
           /\ Name row' = Name row /\ Team row' = Team row
           /\ Position row' = Position row /\ League row' = League row
           /\ (Country row <> [] -> Country row' = Country row)
           /\ (Shirt_Number row <> [] -> Shirt_Number row' = Shirt_Number row)).
Proof.
  intros Hlaws.
  assert (Hparsed : forall (heap : gmap nat player_row) (rows : list nat) l row,
      heap !! l = Some row -> emitted_by_parser row ->
      exists row',
        (fill_missing_data fetch_soup heap rows).1 !! l = Some row'
        /\ Name row' = Name row /\ Team row' = Team row
        /\ Position row' = Position row /\ League row' = League row
        /\ (Country row <> [] -> Country row' = Country row)
        /\ (Shirt_Number row <> [] -> Shirt_Number row' = Shirt_Number row)).
  { intros heap rows l row Hl Hemitted.
    destruct (emitted_not_blank row Hlaws Hemitted) as [Hcountry Hnumber].
    destruct (fill_loop_kept fetch_soup rows heap [] l row Hl)
      as (row' & Hrow' & Hname & Hteam & Hpos & Hleague & Hc & Hs).
    exists row'. repeat split; try assumption.
    - intros Hnz. apply Hc, Hcountry, Hnz.
    - intros Hnz. apply Hs, Hnumber, Hnz. }
  split; [exact Hparsed |].
  intros i row Hi. apply Hparsed.
  - rewrite lookup_map_seq_0. exact Hi.
  - assert (Hin : In row (flat_map (fetch_club_squad fetch_soup) CLUBS))
      by (apply list_elem_of_In, list_elem_of_lookup; eauto).
    apply in_flat_map in Hin as (club & _ & Hclub).
    exact (fetch_club_squad_emitted club row Hclub).
Qed.

End Extracted.

Lemma enrichment_never_overwrites_witness :
  exists row',
    (fill_missing_data (U := ascii_unicode) Sample.offline
       {[ 0 := Sample.pedri "ESP" "" ]} [0; 0]).1 !! 0 = Some row'
    /\ Name row' = Name (Sample.pedri "ESP" "")
    /\ Team row' = Team (Sample.pedri "ESP" "")
    /\ Position row' = Position (Sample.pedri "ESP" "")
    /\ League row' = League (Sample.pedri "ESP" "")
    /\ (Country (Sample.pedri "ESP" "") <> [] ->
        Country row' = Country (Sample.pedri "ESP" ""))
    /\ (Shirt_Number (Sample.pedri "ESP" "") <> [] ->
        Shirt_Number row' = Shirt_Number (Sample.pedri "ESP" "")).
Proof.
  apply (proj1 (enrichment_never_overwrites (U := ascii_unicode) Sample.offline
                  ascii_runtime_laws)
               {[ 0 := Sample.pedri "ESP" "" ]} [0; 0] 0 (Sample.pedri "ESP" "")).
  - reflexivity.
  - exists Sample.number_pos_nat_player, (u "FC Barcelona"), (u "LaLiga"),
      (Sample.tr [ Sample.td ""; Sample.td "MF"; Sample.td "Spain";
                   Sample.el "td" [] [Sample.link "Pedri"] ]).
    vm_compute. reflexivity.
Defined.
